(** * dicom_image_filter: pixel-array filters over a DICOM frame

    A shallow embedding of [src/dicom_image_filter.py]: the four filter
    classes, their property records, the catalog [dicom_image_filters] and
    [newFilter], over an explicit Python heap (arrays and filter objects are
    reached through references, so aliasing and in-place updates are
    visible).  The Qt widget code of the module carries no pixel logic and
    is left out.

    The array operations of numpy that the filters use are written out on
    row-major grids; floats are IEEE binary64 values of [SpecFloat].  The
    two functions of the vision library, [cv.dilate] and [cv.erode], are not
    part of the repository and are modelled from their description in the
    specification. *)

From Stdlib Require Import ZArith Lia Bool SpecFloat.
From stdpp Require Import base option list gmap strings.

Local Open Scope Z_scope.

(** ** Python results: a value or a raised exception *)

Inductive exn : Type :=
  | IndexError      (* list index out of range *)
  | AttributeError  (* attribute read on an object that lacks it *)
  | TypeError       (* operand that is not an array *)
  | ValueError      (* numpy: negative dimensions are not allowed *)
  | OverflowError   (* numpy: Python integer out of bounds for the element type *)
  | CvError.        (* fault reported by the vision library *)

Inductive result (A : Type) : Type :=
  | Ok (a : A)
  | Raise (e : exn).
Arguments Ok {A} a.
Arguments Raise {A} e.

(** ** Numbers held by an array *)

(** numpy's [float64]: IEEE binary64 as specified by [SpecFloat]. *)
Definition float64 : Type := spec_float.
Definition f64_prec : Z := 53.
Definition f64_emax : Z := 1024.
Definition f64_mul : float64 -> float64 -> float64 := SFmul f64_prec f64_emax.
Definition f64_add : float64 -> float64 -> float64 := SFadd f64_prec f64_emax.
Definition f64_sub : float64 -> float64 -> float64 := SFsub f64_prec f64_emax.
Definition f64_ltb : float64 -> float64 -> bool := SFltb.
(** Conversion of an integer to [float64], rounding to nearest even. *)
Definition f64_of_Z (z : Z) : float64 := binary_normalize f64_prec f64_emax z 0 false.

(** The element operations the filters use, per element type: storing a
    Python int into the array (also the [1] of [np.ones]), the comparison
    behind [<] and [>], and the test for a non-zero element. *)
Class Pixel (T : Type) : Type := {
  pix_of_int : Z -> T;
  pix_ltb : T -> T -> bool;
  pix_nonzero : T -> bool;
}.

#[export] Instance Pixel_Z : Pixel Z := {|
  pix_of_int := fun z => z;
  pix_ltb := Z.ltb;
  pix_nonzero := fun z => negb (z =? 0);
|}.

#[export] Instance Pixel_float64 : Pixel float64 := {|
  pix_of_int := f64_of_Z;
  pix_ltb := f64_ltb;
  pix_nonzero := fun x => negb (SFeqb x (S754_zero false));
|}.

(** numpy's integer element types, and the values each can hold. *)
Inductive itype : Type :=
  | int8 | uint8 | int16 | uint16 | int32 | uint32 | int64 | uint64.

Definition int_signed (t : itype) : bool :=
  match t with
  | int8 | int16 | int32 | int64 => true
  | uint8 | uint16 | uint32 | uint64 => false
  end.

Definition int_bits (t : itype) : Z :=
  match t with
  | int8 | uint8 => 8
  | int16 | uint16 => 16
  | int32 | uint32 => 32
  | int64 | uint64 => 64
  end.

Definition int_min (t : itype) : Z :=
  if int_signed t then - 2 ^ (int_bits t - 1) else 0.

Definition int_max (t : itype) : Z :=
  if int_signed t then 2 ^ (int_bits t - 1) - 1 else 2 ^ int_bits t - 1.

Definition in_range (t : itype) (x : Z) : bool :=
  (int_min t <=? x) && (x <=? int_max t).

(** A 2-D [np.ndarray], row-major, with an integer element type or with
    [float64] elements.  The elements of an integer array are kept as
    integers; a Python int is stored into one only after the range check of
    its element type (see [np_setitem_mask]). *)
Inductive ndarray : Type :=
  | IntArray (t : itype) (rows : list (list Z))
  | FloatArray (rows : list (list float64)).

Definition shape (a : ndarray) : list nat :=
  match a with
  | IntArray _ rows => length <$> rows
  | FloatArray rows => length <$> rows
  end.

(** ** The heap *)

Definition loc : Type := nat.

(** What a call hands back: [None] or a reference to an array. *)
Inductive pyobj : Type :=
  | PyNone
  | PyArray (l : loc).

Record WindowingProperties : Type := mkWindowingProperties {
  width : Z;
  level : Z;
}.

Record FilterMorphologyProperties : Type := mkFilterMorphologyProperties {
  kernel_x : Z;
  kernel_y : Z;
  iterations : Z;
}.

(** The value of [self.properties]. *)
Inductive properties : Type :=
  | PropNone
  | PropWindowing (p : WindowingProperties)
  | PropMorphology (p : FilterMorphologyProperties).

Inductive filter_class : Type :=
  | FilterTransformToHU
  | FilterWindowing
  | FilterMorphologyDilate
  | FilterMorphologyErode.

(** A filter instance: its class and its [properties] attribute. *)
Record filter_obj : Type := mkFilter {
  cls : filter_class;
  props : properties;
}.

Record heap : Type := mkHeap {
  arrays : list ndarray;
  objects : list filter_obj;
}.

(** State and exception monad over the heap. *)
Definition M (A : Type) : Type := heap -> result (A * heap).

Definition ret {A} (a : A) : M A := fun h => Ok (a, h).
Definition raise {A} (e : exn) : M A := fun _ => Raise e.
Definition bind {A B} (m : M A) (k : A -> M B) : M B :=
  fun h => match m h with
           | Ok (a, h') => k a h'
           | Raise e => Raise e
           end.
Definition lift {A} (r : result A) : M A :=
  fun h => match r with Ok a => Ok (a, h) | Raise e => Raise e end.

Notation "'let*' x ':=' m 'in' k" := (bind m (fun x => k))
  (at level 10, x name, m at level 100, k at level 200).

(** Reading the array behind a reference; a reference that denotes no array
    cannot be built in Python and is reported as [TypeError]. *)
Definition load (p : loc) : M ndarray :=
  fun h => match arrays h !! p with
           | Some a => Ok (a, h)
           | None => Raise TypeError
           end.

(** Overwriting the buffer of an existing array. *)
Definition store (p : loc) (a : ndarray) : M unit :=
  fun h => Ok (tt, mkHeap (<[p := a]> (arrays h)) (objects h)).

(** A new array, at a reference not used before. *)
Definition alloc (a : ndarray) : M loc :=
  fun h => Ok (length (arrays h), mkHeap (arrays h ++ [a]) (objects h)).

(** A new filter object. *)
Definition alloc_obj (o : filter_obj) : M loc :=
  fun h => Ok (length (objects h), mkHeap (arrays h) (objects h ++ [o])).

(** ** Class attributes *)

Definition _inplace (c : filter_class) : bool :=
  match c with
  | FilterTransformToHU => false
  | FilterWindowing => false
  | FilterMorphologyDilate => true
  | FilterMorphologyErode => true
  end.

Definition _display_name (c : filter_class) : string :=
  match c with
  | FilterTransformToHU => "Transform2HU"
  | FilterWindowing => "CTWindowing"
  | FilterMorphologyDilate => "Dilate"
  | FilterMorphologyErode => "Erode"
  end.

Definition _display_desc (c : filter_class) : string :=
  match c with
  | FilterTransformToHU => "Transform to Hounsfield Unit"
  | FilterWindowing => "numpy Threshold-like HU Gray Level Mapping"
  | FilterMorphologyDilate => "opencv2 Dilate Morphological Operation"
  | FilterMorphologyErode => "opencv2 Erode Morphological Operation"
  end.

Definition isInplaceOp (self : filter_obj) : bool := _inplace (cls self).
Definition displayName (self : filter_obj) : string := _display_name (cls self).
Definition displayDesc (self : filter_obj) : string := _display_desc (cls self).

(** ** Construction *)

(** [__init__] of each class.  The dataclasses take their fields by
    position: [WindowingProperties(40, 48)] binds [width], then [level]. *)
Definition __init__ (c : filter_class) : filter_obj :=
  match c with
  | FilterTransformToHU => mkFilter c PropNone
  | FilterWindowing => mkFilter c (PropWindowing (mkWindowingProperties 40 48))
  | FilterMorphologyDilate =>
      mkFilter c (PropMorphology (mkFilterMorphologyProperties 5 5 1))
  | FilterMorphologyErode =>
      mkFilter c (PropMorphology (mkFilterMorphologyProperties 5 5 1))
  end.

Definition dicom_image_filters : list filter_class :=
  [ FilterTransformToHU;
    FilterWindowing;
    FilterMorphologyDilate;
    FilterMorphologyErode ].

(** Python's [l[i]] on a list: a negative index counts from the end. *)
Definition py_getitem {A} (l : list A) (i : Z) : result A :=
  let n := Z.of_nat (length l) in
  let j := if i <? 0 then i + n else i in
  if (j <? 0) || (n <=? j) then Raise IndexError
  else match l !! Z.to_nat j with
       | Some x => Ok x
       | None => Raise IndexError
       end.

Definition newFilter (filter_enum : Z) : M loc :=
  let* c := lift (py_getitem dicom_image_filters filter_enum) in
  alloc_obj (__init__ c).

(** ** The DICOM dataset *)

(** The dataset is read through [hasattr] and attribute access only; the
    two rescale attributes hold decimal strings decoded to floats. *)
Definition dataset : Type := gmap string float64.

Definition hasattr (ds : dataset) (name : string) : bool :=
  bool_decide (is_Some (ds !! name)).

Definition getattr (ds : dataset) (name : string) : M float64 :=
  match ds !! name with
  | Some v => ret v
  | None => raise AttributeError
  end.

(** ** numpy *)

Inductive dtype : Type := dt_int (t : itype) | dt_float64.

(** An element-wise operation over a grid. *)
Definition map2d {A B} (f : A -> B) (rows : list (list A)) : list (list B) :=
  (fun row : list A => f <$> row) <$> rows.

Definition np_dtype (a : ndarray) : dtype :=
  match a with
  | IntArray t _ => dt_int t
  | FloatArray _ => dt_float64
  end.

(** The elements as [float64], the common type of an array and a float. *)
Definition as_float (a : ndarray) : list (list float64) :=
  match a with
  | IntArray _ rows => map2d f64_of_Z rows
  | FloatArray rows => rows
  end.

(** [a * s] and [a + s] for a float [s]: a new [float64] array. *)
Definition np_mul_scalar (a : ndarray) (s : float64) : ndarray :=
  FloatArray (map2d (fun v => f64_mul v s) (as_float a)).

Definition np_add_scalar (a : ndarray) (s : float64) : ndarray :=
  FloatArray (map2d (fun v => f64_add v s) (as_float a)).

(** [a < x] and [a > x] for a Python int [x]: the boolean mask. *)
Definition np_lt (a : ndarray) (x : Z) : list (list bool) :=
  match a with
  | IntArray _ rows => map2d (fun v => pix_ltb v (pix_of_int x)) rows
  | FloatArray rows => map2d (fun v => pix_ltb v (pix_of_int x)) rows
  end.

Definition np_gt (a : ndarray) (x : Z) : list (list bool) :=
  match a with
  | IntArray _ rows => map2d (fun v => pix_ltb (pix_of_int x) v) rows
  | FloatArray rows => map2d (fun v => pix_ltb (pix_of_int x) v) rows
  end.

Definition put_mask {T} (x : T) (rows : list (list T)) (mask : list (list bool))
  : list (list T) :=
  zip_with (zip_with (fun v (b : bool) => if b then x else v)) rows mask.

(** The contents of [a] after [a[mask] = x] for a Python int [x].  The
    value is first converted to the element type of the array: for an
    integer type that cannot hold it, numpy raises [OverflowError], also
    when the mask selects nothing. *)
Definition np_setitem_mask (a : ndarray) (mask : list (list bool)) (x : Z)
  : result ndarray :=
  match a with
  | IntArray t rows =>
      if in_range t x then Ok (IntArray t (put_mask (pix_of_int x) rows mask))
      else Raise OverflowError
  | FloatArray rows => Ok (FloatArray (put_mask (pix_of_int x) rows mask))
  end.

(** [np.ones((n, m), dtype)]. *)
Definition np_ones (n m : Z) (d : dtype) : result ndarray :=
  if (n <? 0) || (m <? 0) then Raise ValueError
  else match d with
       | dt_int t =>
           Ok (IntArray t (replicate (Z.to_nat n) (replicate (Z.to_nat m) (pix_of_int 1))))
       | dt_float64 =>
           Ok (FloatArray (replicate (Z.to_nat n) (replicate (Z.to_nat m) (pix_of_int 1))))
       end.

(** ** The vision library: [cv.dilate] and [cv.erode] *)

Section Morphology.
Context {T : Type} `{Pixel T}.

(** Element [(i, j)] of a grid, if there is one. *)
Definition at2 (rows : list (list T)) (i j : Z) : option T :=
  if (i <? 0) || (j <? 0) then None
  else rows !! Z.to_nat i ≫= fun row => row !! Z.to_nat j.

(** Modelled from the spec: the neighbourhood of a structuring element, as
    the offsets of its non-zero entries from its anchor, the centre
    [(rows / 2, columns / 2)] (the vision library is not part of the
    repository). *)
Definition kernel_offsets (kernel : list (list T)) : list (Z * Z) :=
  let cy := Z.of_nat (length kernel) / 2 in
  let cx := Z.of_nat (length (default [] (head kernel))) / 2 in
  mjoin (imap (fun a row =>
    omap id (imap (fun b v =>
      if pix_nonzero v then Some (Z.of_nat a - cy, Z.of_nat b - cx) else None) row))
    kernel).

Definition pix_max (a b : T) : T := if pix_ltb a b then b else a.
Definition pix_min (a b : T) : T := if pix_ltb b a then b else a.

(** The selected value among the neighbours; [v] when there is none. *)
Definition select (sel : T -> T -> T) (v : T) (neighbours : list T) : T :=
  match neighbours with
  | [] => v
  | n :: ns => foldr sel n ns
  end.

(** Modelled from the spec: one pass of a grayscale morphological
    operation, the per-pixel maximum ([sel := pix_max]) or minimum
    ([sel := pix_min]) over the structuring-element neighbourhood, clipped
    at the array bounds: a neighbour outside the array does not take part. *)
Definition morph_pass (sel : T -> T -> T) (offs : list (Z * Z))
    (rows : list (list T)) : list (list T) :=
  imap (fun i row =>
    imap (fun j v =>
      select sel v
        (omap (fun d : Z * Z => at2 rows (Z.of_nat i + d.1) (Z.of_nat j + d.2)) offs))
      row)
    rows.

(** Modelled from the spec: the operation repeated [iters] times.  A
    structuring element without rows or columns and a negative iteration
    count are outside the documented domain and reported as a fault. *)
Definition morph_rows (sel : T -> T -> T) (kernel : list (list T)) (iters : Z)
    (rows : list (list T)) : result (list (list T)) :=
  if iters <? 0 then Raise CvError
  else match kernel with
       | [] | [] :: _ => Raise CvError
       | _ => Ok (Nat.iter (Z.to_nat iters) (morph_pass sel (kernel_offsets kernel)) rows)
       end.
End Morphology.

(** Modelled from the spec: [cv.dilate(src, kernel, dst, iterations=n)] and
    [cv.erode(...)] write the result into the buffer of [dst].  The
    structuring element has the element type of the source in every call of
    the module; another combination is reported as a fault. *)
Definition cv_morph (dilate : bool) (src : loc) (kernel : ndarray) (dst : loc)
    (iters : Z) : M unit :=
  let* a := load src in
  match a, kernel with
  | IntArray t rows, IntArray _ k =>
      let* r := lift (morph_rows (if dilate then pix_max else pix_min) k iters rows) in
      store dst (IntArray t r)
  | FloatArray rows, FloatArray k =>
      let* r := lift (morph_rows (if dilate then pix_max else pix_min) k iters rows) in
      store dst (FloatArray r)
  | _, _ => raise CvError
  end.

Definition cv_dilate : loc -> ndarray -> loc -> Z -> M unit := cv_morph true.
Definition cv_erode : loc -> ndarray -> loc -> Z -> M unit := cv_morph false.

(** ** The filters *)

(** [self.properties.<field>] on a properties object of the expected class. *)
Definition windowing_properties (self : filter_obj) : M WindowingProperties :=
  match props self with
  | PropWindowing p => ret p
  | _ => raise AttributeError
  end.

Definition morphology_properties (self : filter_obj) : M FilterMorphologyProperties :=
  match props self with
  | PropMorphology p => ret p
  | _ => raise AttributeError
  end.

Definition FilterTransformToHU_dispatch (self : filter_obj) (dicom_ds : dataset)
    (pixel_array : loc) : M pyobj :=
  if negb (hasattr dicom_ds "RescaleIntercept") then ret PyNone
  else if negb (hasattr dicom_ds "RescaleSlope") then ret PyNone
  else
    let* slope := getattr dicom_ds "RescaleSlope" in
    let* intercept := getattr dicom_ds "RescaleIntercept" in
    let* a := load pixel_array in
    let* r := alloc (np_add_scalar (np_mul_scalar a slope) intercept) in
    ret (PyArray r).

Definition FilterWindowing_dispatch (self : filter_obj) (dicom_ds : dataset)
    (pixel_array : loc) : M pyobj :=
  let* p := windowing_properties self in
  let img_min := level p - width p / 2 in
  let img_max := level p + width p / 2 in
  let* a := load pixel_array in
  let* a1 := lift (np_setitem_mask a (np_lt a img_min) img_min) in
  let* _ := store pixel_array a1 in
  let* a := load pixel_array in
  let* a2 := lift (np_setitem_mask a (np_gt a img_max) img_max) in
  let* _ := store pixel_array a2 in
  ret (PyArray pixel_array).

Definition FilterMorphologyDilate_dispatch (self : filter_obj) (dicom_ds : dataset)
    (pixel_array : loc) : M pyobj :=
  let* p := morphology_properties self in
  let* a := load pixel_array in
  let* kernel := lift (np_ones (kernel_x p) (kernel_y p) (np_dtype a)) in
  let* _ := cv_dilate pixel_array kernel pixel_array (iterations p) in
  ret PyNone.

Definition FilterMorphologyErode_dispatch (self : filter_obj) (dicom_ds : dataset)
    (pixel_array : loc) : M pyobj :=
  let* p := morphology_properties self in
  let* a := load pixel_array in
  let* kernel := lift (np_ones (kernel_x p) (kernel_y p) (np_dtype a)) in
  let* _ := cv_erode pixel_array kernel pixel_array (iterations p) in
  ret PyNone.

(** Method resolution: [self.dispatch(dicom_ds, pixel_array)]. *)
Definition dispatch (self : filter_obj) : dataset -> loc -> M pyobj :=
  match cls self with
  | FilterTransformToHU => FilterTransformToHU_dispatch self
  | FilterWindowing => FilterWindowing_dispatch self
  | FilterMorphologyDilate => FilterMorphologyDilate_dispatch self
  | FilterMorphologyErode => FilterMorphologyErode_dispatch self
  end.

(** The rescale values of the documented scenario. *)
Definition f64_two : float64 := f64_of_Z 2.
Definition f64_neg1024 : float64 := f64_of_Z (-1024).

(** A dataset carrying that slope and intercept, and a one-row frame. *)
Definition scenario_ds : dataset :=
  <["RescaleSlope" := f64_two]> (<["RescaleIntercept" := f64_neg1024]> ∅).

Definition scenario_heap : heap := mkHeap [IntArray int16 [[-100; 16; 64; 200]]] [].

(** The defaults as the documentation lists them: window level 40 and width
    48, a 5-by-5 structuring element applied once, nothing for the
    Hounsfield transform. *)
Definition documented_defaults (c : filter_class) : properties :=
  match c with
  | FilterTransformToHU => PropNone
  | FilterWindowing => PropWindowing {| level := 40; width := 48 |}
  | FilterMorphologyDilate =>
      PropMorphology {| kernel_x := 5; kernel_y := 5; iterations := 1 |}
  | FilterMorphologyErode =>
      PropMorphology {| kernel_x := 5; kernel_y := 5; iterations := 1 |}
  end.

(** Clamping one element to the window, in the words of the documentation:
    an element below [lo] is raised to [lo], then an element above [hi] is
    lowered to [hi]. *)
Definition clamp {T} `{Pixel T} (lo hi : Z) (v : T) : T :=
  let w := if pix_ltb v (pix_of_int lo) then pix_of_int lo else v in
  if pix_ltb (pix_of_int hi) w then pix_of_int hi else w.

(** The window applied to every element of an array. *)
Definition windowed (lo hi : Z) (a : ndarray) : ndarray :=
  match a with
  | IntArray t rows => IntArray t (map2d (clamp lo hi) rows)
  | FloatArray rows => FloatArray (map2d (clamp lo hi) rows)
  end.

(** The array after the first masked assignment. *)
Definition raised (lo : Z) (a : ndarray) : ndarray :=
  match a with
  | IntArray t rows =>
      IntArray t (map2d (fun v => if pix_ltb v (pix_of_int lo) then pix_of_int lo else v) rows)
  | FloatArray rows =>
      FloatArray (map2d (fun v => if pix_ltb v (pix_of_int lo) then pix_of_int lo else v) rows)
  end.

(** A Python int that converts to a finite binary64 value; a larger one
    cannot be converted to a float at all. *)
Definition float_holds (x : Z) : bool :=
  match binary_normalize 53 1024 x 0 false with
  | S754_infinity _ => false
  | _ => true
  end.

(** A value of the element type of [a] can stand for the Python int [x]. *)
Definition holds (a : ndarray) (x : Z) : bool :=
  match a with
  | IntArray t _ => (int_min t <=? x) && (x <=? int_max t)
  | FloatArray _ => float_holds x
  end.

(** The range check the masked assignment makes on [a] for the Python int
    [x]. *)
Definition fits (a : ndarray) (x : Z) : bool :=
  match a with
  | IntArray t _ => in_range t x
  | FloatArray _ => true
  end.

(** The structuring element of a morphology filter on an integer array and
    on a float array, as [np.ones] builds it for positive sizes. *)
Definition ones {T} `{Pixel T} (mp : FilterMorphologyProperties) : list (list T) :=
  replicate (Z.to_nat (kernel_x mp)) (replicate (Z.to_nat (kernel_y mp)) (pix_of_int 1)).

(** The contents a morphology filter leaves in the buffer: the dilation
    ([dilate = true]) or the erosion of the array by the all-ones
    structuring element, repeated [iterations] times. *)
Definition morphed (dilate : bool) (mp : FilterMorphologyProperties) (a : ndarray)
  : ndarray :=
  match a with
  | IntArray t rows =>
      IntArray t (Nat.iter (Z.to_nat (iterations mp))
                  (morph_pass (if dilate then pix_max else pix_min)
                     (kernel_offsets (ones (T:=Z) mp))) rows)
  | FloatArray rows =>
      FloatArray (Nat.iter (Z.to_nat (iterations mp))
                    (morph_pass (if dilate then pix_max else pix_min)
                       (kernel_offsets (ones (T:=float64) mp))) rows)
  end.

(** The grid of [h] rows and [w] columns whose element [(i, j)] is [f i j]. *)
Definition grid_of {T} (h w : nat) (f : Z -> Z -> T) : list (list T) :=
  (fun i : nat => (fun j : nat => f (Z.of_nat i) (Z.of_nat j)) <$> seq 0 w) <$> seq 0 h.

(** [(i, j)] is a position of an [h]-by-[w] grid. *)
Definition inb (h w : nat) (i j : Z) : bool :=
  (0 <=? i) && (i <? Z.of_nat h) && (0 <=? j) && (j <? Z.of_nat w).

(** A binary image: 1 where [f] holds, 0 elsewhere. *)
Definition binary (h w : nat) (f : Z -> Z -> bool) : list (list Z) :=
  grid_of h w (fun i j => Z.b2z (f i j)).



(** A convex filled region: the grid points [(i, j)] that satisfy every
    inequality [a * i + b * j <= c] of a finite system, that is, the grid
    points of a convex polygon. *)
Definition half_plane : Type := Z * Z * Z.

Definition satisfies (i j : Z) (hp : half_plane) : bool :=
  let '(a, b, c) := hp in a * i + b * j <=? c.

Definition in_region (hps : list half_plane) (i j : Z) : bool :=
  forallb (satisfies i j) hps.

(** The offsets [(di, dj)] covered by the all-ones structuring element of
    the given sizes, anchored at its centre. *)
Definition in_kernel (mp : FilterMorphologyProperties) (di dj : Z) : Prop :=
  - (kernel_x mp `div` 2) <= di < kernel_x mp - kernel_x mp `div` 2 /\
  - (kernel_y mp `div` 2) <= dj < kernel_y mp - kernel_y mp `div` 2.

(** Every pixel of the region keeps [hx + 1] rows and [hy + 1] columns of
    background between itself and the border of the [h]-by-[w] image. *)
Definition clear_of_border (h w : nat) (hx hy : Z) (f : Z -> Z -> bool) : Prop :=
  forall i j, inb h w i j = true -> f i j = true ->
    hx + 1 <= i < Z.of_nat h - hx - 1 /\ hy + 1 <= j < Z.of_nat w - hy - 1.

(** The class whose operation is the dilation. *)
Definition is_dilate (c : filter_class) : bool :=
  match c with
  | FilterMorphologyDilate => true
  | _ => false
  end.

(** A morphology filter with the given parameters. *)
Definition morphology_filter (c : filter_class) (kx ky n : Z) : filter_obj :=
  mkFilter c (PropMorphology {| kernel_x := kx; kernel_y := ky; iterations := n |}).

(** Dilate, then erode, the same array with two filters. *)
Definition dilate_then_erode (fd fe : filter_obj) (ds : dataset) (p : loc) : M pyobj :=
  let* _ := dispatch fd ds p in
  dispatch fe ds p.

(** The heap after one more filter object has been constructed. *)
Definition with_object (h : heap) (o : filter_obj) : heap :=
  mkHeap (arrays h) (objects h ++ [o]).

(** * The catalog and [newFilter] *)

Lemma py_getitem_catalog_in (idx : Z) :
  -4 <= idx < 4 ->
  py_getitem dicom_image_filters idx =
    Ok (if idx =? 0 then FilterTransformToHU
        else if idx =? 1 then FilterWindowing
        else if idx =? 2 then FilterMorphologyDilate
        else if idx =? 3 then FilterMorphologyErode
        else if idx =? -4 then FilterTransformToHU
        else if idx =? -3 then FilterWindowing
        else if idx =? -2 then FilterMorphologyDilate
        else FilterMorphologyErode).
Proof.
  intros Hr.
  assert (Hc : idx = -4 \/ idx = -3 \/ idx = -2 \/ idx = -1 \/
               idx = 0 \/ idx = 1 \/ idx = 2 \/ idx = 3) by lia.
  destruct Hc as [->|[->|[->|[->|[->|[->|[->| ->]]]]]]]; reflexivity.
Qed.

Lemma py_getitem_catalog_out (idx : Z) :
  idx < -4 \/ 4 <= idx ->
  py_getitem dicom_image_filters idx = Raise IndexError.
Proof.
  intros Hr. unfold py_getitem. cbn [dicom_image_filters length].
  change (Z.of_nat 4) with 4.
  destruct (idx <? 0) eqn:Hneg.
  - apply Z.ltb_lt in Hneg.
    assert (Hj : (idx + 4 <? 0) = true) by (apply Z.ltb_lt; lia).
    rewrite Hj. reflexivity.
  - apply Z.ltb_ge in Hneg.
    assert (Hj : (4 <=? idx) = true) by (apply Z.leb_le; lia).
    rewrite Hj, orb_true_r. reflexivity.
Qed.

(** [newFilter] either raises [IndexError] and nothing else, or constructs
    the object of the selected class at the next free reference. *)
Lemma newFilter_run (idx : Z) (h : heap) :
  newFilter idx h =
    match py_getitem dicom_image_filters idx with
    | Ok c => Ok (length (objects h), with_object h (__init__ c))
    | Raise e => Raise e
    end.
Proof.
  unfold newFilter, bind, lift, alloc_obj, with_object.
  destruct (py_getitem dicom_image_filters idx); reflexivity.
Qed.

Lemma newFilter_raises_iff (idx : Z) (h : heap) :
  newFilter idx h = Raise IndexError <-> idx < -4 \/ 4 <= idx.
Proof.
  rewrite newFilter_run. split.
  - intros Hraise.
    destruct (Z_lt_dec idx (-4)) as [|Hlo]; [left; assumption|].
    destruct (Z_le_dec 4 idx) as [|Hhi]; [right; assumption|].
    rewrite py_getitem_catalog_in in Hraise by lia. discriminate.
  - intros Hr. rewrite py_getitem_catalog_out by assumption. reflexivity.
Qed.

Lemma fresh_object (h : heap) : objects h !! length (objects h) = None.
Proof. apply lookup_ge_None_2. apply Nat.le_refl. Qed.

Lemma with_object_lookup_new (h : heap) (o : filter_obj) :
  objects (with_object h o) !! length (objects h) = Some o.
Proof.
  unfold with_object. cbn [objects].
  rewrite lookup_app_r by apply Nat.le_refl.
  rewrite Nat.sub_diag. reflexivity.
Qed.

Lemma with_object_lookup_old (h : heap) (o o' : filter_obj) (l : loc) :
  objects h !! l = Some o' -> objects (with_object h o) !! l = Some o'.
Proof.
  intros Hl. unfold with_object. cbn [objects].
  apply lookup_app_l_Some. exact Hl.
Qed.

Lemma newFilter_constructs (idx : Z) (h : heap) :
  -4 <= idx < 4 ->
  exists c,
    dicom_image_filters !! Z.to_nat (if idx <? 0 then idx + 4 else idx) = Some c /\
    newFilter idx h = Ok (length (objects h), with_object h (__init__ c)).
Proof.
  intros Hr. rewrite newFilter_run, py_getitem_catalog_in by assumption.
  assert (Hc : idx = -4 \/ idx = -3 \/ idx = -2 \/ idx = -1 \/
               idx = 0 \/ idx = 1 \/ idx = 2 \/ idx = 3) by lia.
  destruct Hc as [->|[->|[->|[->|[->|[->|[->| ->]]]]]]];
    eexists; split; reflexivity.
Qed.

(** C3, as stated, fails: the index [-1] lies outside [0, 4) and yet
    [newFilter] raises nothing. *)
Lemma newFilter_index_error_counterexample :
  ~ (forall (idx : Z) (h : heap),
       newFilter idx h = Raise IndexError <-> ~ (0 <= idx < 4)).
Proof.
  intros Hclaim.
  destruct (Hclaim (-1) (mkHeap [] [])) as [_ Hraise].
  assert (Hout : ~ (0 <= -1 < 4)) by lia.
  specialize (Hraise Hout). vm_compute in Hraise. discriminate.
Qed.

(** C3 (amended): [newFilter] raises [IndexError] if and only if the index
    is below [-4] or at least [4], and it raises no other error; for every
    index in [0, 4) it constructs a new filter object of the class at that
    position of the catalog (TransformToHU, Windowing, MorphologyDilate,
    MorphologyErode), with the parameters its constructor sets, at a
    reference no earlier object has, leaving the earlier objects as they
    were. *)
Theorem newFilter_index_error_iff (idx : Z) (h : heap) :
  (newFilter idx h = Raise IndexError <-> idx < -4 \/ 4 <= idx) /\
  (forall e, newFilter idx h = Raise e -> e = IndexError) /\
  dicom_image_filters =
    [FilterTransformToHU; FilterWindowing;
     FilterMorphologyDilate; FilterMorphologyErode] /\
  (0 <= idx < 4 ->
   exists c l h' o,
     dicom_image_filters !! Z.to_nat idx = Some c /\
     newFilter idx h = Ok (l, h') /\
     objects h !! l = None /\
     objects h' !! l = Some o /\
     o = __init__ c /\
     cls o = c /\
     (idx = 0 -> cls o = FilterTransformToHU /\ props o = PropNone) /\
     (idx = 1 -> cls o = FilterWindowing /\
                 props o = PropWindowing {| width := 40; level := 48 |}) /\
     (idx = 2 -> cls o = FilterMorphologyDilate /\
                 props o = PropMorphology
                             {| kernel_x := 5; kernel_y := 5; iterations := 1 |}) /\
     (idx = 3 -> cls o = FilterMorphologyErode /\
                 props o = PropMorphology
                             {| kernel_x := 5; kernel_y := 5; iterations := 1 |}) /\
     arrays h' = arrays h /\
     forall l' o', objects h !! l' = Some o' -> objects h' !! l' = Some o').
Proof.
  split; [apply newFilter_raises_iff|].
  split.
  { intros e He.
    destruct (Z_lt_dec idx (-4)) as [Hlo|Hlo].
    - rewrite newFilter_run, py_getitem_catalog_out in He by lia. congruence.
    - destruct (Z_le_dec 4 idx) as [Hhi|Hhi].
      + rewrite newFilter_run, py_getitem_catalog_out in He by lia. congruence.
      + rewrite newFilter_run, py_getitem_catalog_in in He by lia. discriminate. }
  split; [reflexivity|].
  intros Hr.
  destruct (newFilter_constructs idx h) as (c & Hc & Hrun); [lia|].
  assert (Hpos : (idx <? 0) = false) by (apply Z.ltb_ge; lia).
  rewrite Hpos in Hc.
  exists c, (length (objects h)), (with_object h (__init__ c)), (__init__ c).
  split; [exact Hc|]. split; [exact Hrun|].
  split; [apply fresh_object|].
  split; [apply with_object_lookup_new|].
  split; [reflexivity|].
  split; [destruct c; reflexivity|].
  split; [intros ->; vm_compute in Hc; injection Hc as <-; split; reflexivity|].
  split; [intros ->; vm_compute in Hc; injection Hc as <-; split; reflexivity|].
  split; [intros ->; vm_compute in Hc; injection Hc as <-; split; reflexivity|].
  split; [intros ->; vm_compute in Hc; injection Hc as <-; split; reflexivity|].
  split; [reflexivity|].
  intros l' o'. apply with_object_lookup_old.
Qed.

Lemma newFilter_index_error_iff_witness :
  exists c l h' o,
    dicom_image_filters !! Z.to_nat 2 = Some c /\
    newFilter 2 (mkHeap [] []) = Ok (l, h') /\
    objects (mkHeap [] []) !! l = None /\
    objects h' !! l = Some o /\
    cls o = FilterMorphologyDilate /\
    props o = PropMorphology {| kernel_x := 5; kernel_y := 5; iterations := 1 |}.
Proof.
  destruct (newFilter_index_error_iff 2 (mkHeap [] [])) as (_ & _ & _ & Hin).
  destruct Hin as (c & l & h' & o & Hc & Hrun & Hnew & Ho & _ & _ & _ & _ & H2 & _);
    [lia|].
  destruct (H2 eq_refl) as [Hcls Hprops].
  exists c, l, h', o. auto 10.
Defined.

(** C9: for every index in [-4, -1], [newFilter] raises nothing and
    constructs a new filter object of the class found by counting from the
    end of the four-entry catalog ([-1] gives a FilterMorphologyErode, [-4]
    a FilterTransformToHU), with the parameters its constructor sets; an
    index error is raised only for an index that is at least [4] or below
    [-4]. *)
Theorem newFilter_negative_index (idx : Z) (h : heap) :
  -4 <= idx <= -1 ->
  (exists c l h' o,
     dicom_image_filters !! Z.to_nat (idx + 4) = Some c /\
     newFilter idx h = Ok (l, h') /\
     objects h !! l = None /\
     objects h' !! l = Some o /\
     o = __init__ c /\
     cls o = c /\
     (idx = -1 -> cls o = FilterMorphologyErode /\
                  props o = PropMorphology
                              {| kernel_x := 5; kernel_y := 5; iterations := 1 |}) /\
     (idx = -2 -> cls o = FilterMorphologyDilate /\
                  props o = PropMorphology
                              {| kernel_x := 5; kernel_y := 5; iterations := 1 |}) /\
     (idx = -3 -> cls o = FilterWindowing /\
                  props o = PropWindowing {| width := 40; level := 48 |}) /\
     (idx = -4 -> cls o = FilterTransformToHU /\ props o = PropNone)) /\
  (forall (idx' : Z) (h0 : heap) (e : exn),
     newFilter idx' h0 = Raise e -> e = IndexError /\ (4 <= idx' \/ idx' < -4)).
Proof.
  intros Hr. split.
  - destruct (newFilter_constructs idx h) as (c & Hc & Hrun); [lia|].
    assert (Hneg : (idx <? 0) = true) by (apply Z.ltb_lt; lia).
    rewrite Hneg in Hc.
    exists c, (length (objects h)), (with_object h (__init__ c)), (__init__ c).
    split; [exact Hc|]. split; [exact Hrun|].
    split; [apply fresh_object|].
    split; [apply with_object_lookup_new|].
    split; [reflexivity|].
    split; [destruct c; reflexivity|].
    split; [intros ->; vm_compute in Hc; injection Hc as <-; split; reflexivity|].
    split; [intros ->; vm_compute in Hc; injection Hc as <-; split; reflexivity|].
    split; [intros ->; vm_compute in Hc; injection Hc as <-; split; reflexivity|].
    intros ->. vm_compute in Hc. injection Hc as <-. split; reflexivity.
  - intros idx' h0 e He.
    destruct (Z_lt_dec idx' (-4)) as [Hlo|Hlo].
    + rewrite newFilter_run, py_getitem_catalog_out in He by lia.
      split; [congruence|lia].
    + destruct (Z_le_dec 4 idx') as [Hhi|Hhi].
      * rewrite newFilter_run, py_getitem_catalog_out in He by lia.
        split; [congruence|lia].
      * rewrite newFilter_run, py_getitem_catalog_in in He by lia. discriminate.
Qed.

Lemma newFilter_negative_index_witness :
  exists c l h' o,
    dicom_image_filters !! Z.to_nat (-1 + 4) = Some c /\
    newFilter (-1) (mkHeap [] []) = Ok (l, h') /\
    objects (mkHeap [] []) !! l = None /\
    objects h' !! l = Some o /\
    cls o = FilterMorphologyErode /\
    props o = PropMorphology {| kernel_x := 5; kernel_y := 5; iterations := 1 |}.
Proof.
  destruct (newFilter_negative_index (-1) (mkHeap [] [])) as [Hneg _]; [lia|].
  destruct Hneg as (c & l & h' & o & Hc & Hrun & Hnew & Ho & _ & _ & H1 & _).
  destruct (H1 eq_refl) as [Hcls Hprops].
  exists c, l, h', o. auto 10.
Defined.

(** C1, as stated, fails: the Windowing filter that [newFilter 1] constructs
    has level 48 and width 40, not the documented level 40 and width 48. *)
Lemma newFilter_defaults_counterexample :
  exists o : filter_obj,
    newFilter 1 (mkHeap [] []) = Ok (0%nat, mkHeap [] [o]) /\
    cls o = FilterWindowing /\
    props o = PropWindowing {| level := 48; width := 40 |} /\
    props o <> documented_defaults (cls o).
Proof.
  exists (__init__ FilterWindowing).
  split; [reflexivity|]. split; [reflexivity|]. split; [reflexivity|].
  cbn. intros Heq. discriminate Heq.
Qed.

(** C1 (amended): for every valid catalog index, [newFilter] returns a new
    filter of the class at that position whose parameters are the ones its
    constructor sets: the Windowing filter is constructed with width=40 and
    level=48, the morphology filters with kernel_x=5, kernel_y=5,
    iterations=1, and the Hounsfield transform has no parameters. *)
Theorem newFilter_default_parameters (idx : Z) (h : heap) :
  0 <= idx < 4 ->
  exists o : filter_obj,
    newFilter idx h = Ok (length (objects h), with_object h o) /\
    dicom_image_filters !! Z.to_nat idx = Some (cls o) /\
    props o =
      match cls o with
      | FilterTransformToHU => PropNone
      | FilterWindowing => PropWindowing {| width := 40; level := 48 |}
      | FilterMorphologyDilate =>
          PropMorphology {| kernel_x := 5; kernel_y := 5; iterations := 1 |}
      | FilterMorphologyErode =>
          PropMorphology {| kernel_x := 5; kernel_y := 5; iterations := 1 |}
      end.
Proof.
  intros Hr.
  destruct (newFilter_constructs idx h) as (c & Hc & Hrun); [lia|].
  assert (Hpos : (idx <? 0) = false) by (apply Z.ltb_ge; lia).
  rewrite Hpos in Hc.
  exists (__init__ c). split; [exact Hrun|].
  destruct c; (split; [exact Hc | reflexivity]).
Qed.

Lemma newFilter_default_parameters_witness :
  exists o : filter_obj,
    newFilter 1 (mkHeap [] []) =
      Ok (length (objects (mkHeap [] [])), with_object (mkHeap [] []) o) /\
    dicom_image_filters !! Z.to_nat 1 = Some (cls o) /\
    props o =
      match cls o with
      | FilterTransformToHU => PropNone
      | FilterWindowing => PropWindowing {| width := 40; level := 48 |}
      | FilterMorphologyDilate =>
          PropMorphology {| kernel_x := 5; kernel_y := 5; iterations := 1 |}
      | FilterMorphologyErode =>
          PropMorphology {| kernel_x := 5; kernel_y := 5; iterations := 1 |}
      end.
Proof.
  apply (newFilter_default_parameters 1 (mkHeap [] [])). lia.
Defined.

(** * Floating-point facts used by the Hounsfield transform *)

Lemma SFmul_comm (prec emax : Z) (x y : spec_float) :
  SFmul prec emax x y = SFmul prec emax y x.
Proof.
  destruct x as [sx|sx| |sx mx ex], y as [sy|sy| |sy my ey]; cbn;
    try reflexivity; try (rewrite (xorb_comm sx sy); reflexivity).
  rewrite (xorb_comm sx sy), (Pos.mul_comm mx my), (Z.add_comm ex ey).
  reflexivity.
Qed.

Lemma SFsub_add_opp (prec emax : Z) (x y : spec_float) :
  SFsub prec emax x y = SFadd prec emax x (SFopp y).
Proof.
  destruct x as [sx|sx| |sx mx ex], y as [sy|sy| |sy my ey]; cbn;
    try reflexivity;
    destruct sx, sy; reflexivity.
Qed.

(** [v * 2.0 + (-1024.0)], as the code computes it, is [2.0 * v - 1024.0]. *)
Lemma f64_scenario_value (v : float64) :
  f64_add (f64_mul v f64_two) f64_neg1024 =
  f64_sub (f64_mul f64_two v) (f64_of_Z 1024).
Proof.
  unfold f64_add, f64_sub, f64_mul.
  rewrite SFsub_add_opp, (SFmul_comm _ _ f64_two v). reflexivity.
Qed.

(** * Grids *)

Section Grids.
Context {A B : Type}.

Lemma at2_nat (rows : list (list A)) (i j : nat) :
  at2 rows (Z.of_nat i) (Z.of_nat j) = rows !! i ≫= fun row => row !! j.
Proof.
  unfold at2.
  assert (Hi : (Z.of_nat i <? 0) = false) by (apply Z.ltb_ge; lia).
  assert (Hj : (Z.of_nat j <? 0) = false) by (apply Z.ltb_ge; lia).
  rewrite Hi, Hj, !Nat2Z.id. reflexivity.
Qed.

Lemma at2_negative (rows : list (list A)) (i j : Z) :
  i < 0 \/ j < 0 -> at2 rows i j = None.
Proof.
  intros Hneg. unfold at2.
  destruct (i <? 0) eqn:Hi; [reflexivity|].
  destruct (j <? 0) eqn:Hj; [reflexivity|].
  apply Z.ltb_ge in Hi, Hj. lia.
Qed.

Lemma at2_map2d (f : A -> B) (rows : list (list A)) (i j : Z) :
  at2 (map2d f rows) i j = f <$> at2 rows i j.
Proof.
  unfold at2, map2d.
  destruct ((i <? 0) || (j <? 0)); [reflexivity|].
  rewrite list_lookup_fmap.
  destruct (rows !! Z.to_nat i) as [row|]; [|reflexivity].
  cbn. apply list_lookup_fmap.
Qed.

Lemma map2d_shape (f : A -> B) (rows : list (list A)) :
  length <$> map2d f rows = length <$> rows.
Proof.
  unfold map2d. rewrite <- list_fmap_compose.
  apply list_fmap_ext. intros _ row _. cbn. apply length_fmap.
Qed.
End Grids.

(** * The Hounsfield transform *)

Lemma hasattr_Some (ds : dataset) (name : string) (v : float64) :
  ds !! name = Some v -> hasattr ds name = true.
Proof. intros Hv. unfold hasattr. rewrite Hv. reflexivity. Qed.

Lemma hasattr_None (ds : dataset) (name : string) :
  ds !! name = None -> hasattr ds name = false.
Proof.
  intros Hv. unfold hasattr. rewrite Hv.
  apply bool_decide_eq_false. intros [x Hx]. discriminate.
Qed.

(** Without one of the two rescale attributes the method returns [None] and
    touches nothing. *)
Lemma FilterTransformToHU_dispatch_missing (self : filter_obj) (ds : dataset)
    (p : loc) (h : heap) :
  ds !! "RescaleSlope" = None \/ ds !! "RescaleIntercept" = None ->
  FilterTransformToHU_dispatch self ds p h = Ok (PyNone, h).
Proof.
  intros Hmiss. unfold FilterTransformToHU_dispatch.
  destruct (ds !! "RescaleIntercept") as [i|] eqn:Hi.
  - destruct Hmiss as [Hs|Hs]; [|discriminate].
    rewrite (hasattr_Some _ _ _ Hi), (hasattr_None _ _ Hs). reflexivity.
  - rewrite (hasattr_None _ _ Hi). reflexivity.
Qed.

(** With both attributes the result is a new array, appended to the heap. *)
Lemma FilterTransformToHU_dispatch_run (self : filter_obj) (ds : dataset)
    (p : loc) (h : heap) (a : ndarray) (slope intercept : float64) :
  ds !! "RescaleSlope" = Some slope ->
  ds !! "RescaleIntercept" = Some intercept ->
  arrays h !! p = Some a ->
  FilterTransformToHU_dispatch self ds p h =
    Ok (PyArray (length (arrays h)),
        mkHeap (arrays h ++ [np_add_scalar (np_mul_scalar a slope) intercept])
               (objects h)).
Proof.
  intros Hs Hi Ha. unfold FilterTransformToHU_dispatch.
  rewrite (hasattr_Some _ _ _ Hi), (hasattr_Some _ _ _ Hs). cbn [negb].
  unfold bind, getattr, load, alloc, ret. rewrite Hs, Hi, Ha. reflexivity.
Qed.

(** C2, on the code: with no rescale attribute in the dataset, the method
    raises nothing and leaves the array as it was, but what it returns is
    [None], not the array it was given. *)
Theorem FilterTransformToHU_dispatch_missing_returns_None :
  let h := mkHeap [IntArray int16 [[1; 2]; [3; 4]]] [] in
  FilterTransformToHU_dispatch (__init__ FilterTransformToHU) ∅ 0%nat h =
    Ok (PyNone, h) /\
  FilterTransformToHU_dispatch (__init__ FilterTransformToHU) ∅ 0%nat h <>
    Ok (PyArray 0%nat, h).
Proof.
  cbn zeta. rewrite FilterTransformToHU_dispatch_missing.
  - split; [reflexivity|]. intros Heq. discriminate Heq.
  - left. apply lookup_empty.
Qed.

(** C5: with both rescale attributes in the dataset, the method returns a
    new [float64] array of the shape of the input, each element of which is
    the input element (converted to binary64 when the input holds integers)
    times the slope plus the intercept, in binary64 arithmetic; with slope
    2.0 and intercept -1024.0 the element for the input value [v] is
    [2.0 * v - 1024.0], so that the 16-bit frame [-100, 16, 64, 200] gives
    [-1224.0, -992.0, -896.0, -624.0]. *)
Theorem FilterTransformToHU_dispatch_rescales :
  (forall (self : filter_obj) (ds : dataset) (p : loc) (h : heap) (a : ndarray)
          (slope intercept : float64),
     ds !! "RescaleSlope" = Some slope ->
     ds !! "RescaleIntercept" = Some intercept ->
     arrays h !! p = Some a ->
     exists (r : loc) (h' : heap) (out : list (list float64)),
       FilterTransformToHU_dispatch self ds p h = Ok (PyArray r, h') /\
       arrays h !! r = None /\
       arrays h' !! r = Some (FloatArray out) /\
       shape (FloatArray out) = shape a /\
       (forall (t : itype) (rows : list (list Z)), a = IntArray t rows ->
          forall i j z, at2 rows i j = Some z ->
            at2 out i j =
              Some (SFadd 53 1024
                      (SFmul 53 1024 (binary_normalize 53 1024 z 0 false) slope)
                      intercept)) /\
       (forall rows : list (list float64), a = FloatArray rows ->
          forall i j v, at2 rows i j = Some v ->
            at2 out i j = Some (SFadd 53 1024 (SFmul 53 1024 v slope) intercept)) /\
       (slope = S754_finite false 4503599627370496 (-51) ->
        intercept = S754_finite true 4503599627370496 (-42) ->
        (forall (t : itype) (rows : list (list Z)), a = IntArray t rows ->
           forall i j z, at2 rows i j = Some z ->
             at2 out i j =
               Some (SFsub 53 1024
                       (SFmul 53 1024 (S754_finite false 4503599627370496 (-51))
                          (binary_normalize 53 1024 z 0 false))
                       (S754_finite false 4503599627370496 (-42)))) /\
        (forall rows : list (list float64), a = FloatArray rows ->
           forall i j v, at2 rows i j = Some v ->
             at2 out i j =
               Some (SFsub 53 1024
                       (SFmul 53 1024 (S754_finite false 4503599627370496 (-51)) v)
                       (S754_finite false 4503599627370496 (-42)))))) /\
  FilterTransformToHU_dispatch (__init__ FilterTransformToHU)
    (<["RescaleSlope" := S754_finite false 4503599627370496 (-51)]>
       (<["RescaleIntercept" := S754_finite true 4503599627370496 (-42)]> ∅))
    0%nat (mkHeap [IntArray int16 [[-100; 16; 64; 200]]] []) =
  Ok (PyArray 1%nat,
      mkHeap [IntArray int16 [[-100; 16; 64; 200]];
              FloatArray [[S754_finite true 5383208929591296 (-42);
                           S754_finite true 8725724278030336 (-43);
                           S754_finite true 7881299347898368 (-43);
                           S754_finite true 5488762045857792 (-43)]]] []).
Proof.
  split; [|vm_compute; reflexivity].
  intros self ds p h a slope intercept Hs Hi Ha.
  set (scale := fun v : float64 => f64_mul v slope).
  set (shift := fun v : float64 => f64_add v intercept).
  assert (Hat : forall i j v, at2 (as_float a) i j = Some v ->
            at2 (map2d shift (map2d scale (as_float a))) i j =
              Some (SFadd 53 1024 (SFmul 53 1024 v slope) intercept)).
  { intros i j v Hv. rewrite !at2_map2d, Hv. reflexivity. }
  assert (Hint : forall t rows, a = IntArray t rows -> forall i j z,
            at2 rows i j = Some z ->
            at2 (as_float a) i j = Some (binary_normalize 53 1024 z 0 false)).
  { intros t rows -> i j z Hz. cbn [as_float]. rewrite at2_map2d, Hz. reflexivity. }
  exists (length (arrays h)),
    (mkHeap (arrays h ++ [np_add_scalar (np_mul_scalar a slope) intercept]) (objects h)),
    (map2d shift (map2d scale (as_float a))).
  split; [apply (FilterTransformToHU_dispatch_run self ds p h a slope intercept Hs Hi Ha)|].
  split; [apply lookup_ge_None_2, Nat.le_refl|].
  split.
  { cbn [arrays]. rewrite lookup_app_r by apply Nat.le_refl.
    rewrite Nat.sub_diag. reflexivity. }
  split.
  { cbn [shape]. rewrite !map2d_shape.
    destruct a as [t rows|rows]; cbn [as_float shape];
      [apply map2d_shape | reflexivity]. }
  split.
  { intros t rows Heq i j z Hz. apply Hat. apply (Hint t rows Heq i j z Hz). }
  split.
  { intros rows -> i j v Hv. apply Hat. exact Hv. }
  intros -> ->. split.
  - intros t rows Heq i j z Hz.
    rewrite (Hat i j _ (Hint t rows Heq i j z Hz)).
    f_equal. apply (f64_scenario_value (binary_normalize 53 1024 z 0 false)).
  - intros rows -> i j v Hv. rewrite (Hat i j v Hv).
    f_equal. apply (f64_scenario_value v).
Qed.

Lemma FilterTransformToHU_dispatch_rescales_witness :
  exists (r : loc) (h' : heap) (out : list (list float64)),
    FilterTransformToHU_dispatch (__init__ FilterTransformToHU) scenario_ds 0%nat
      scenario_heap = Ok (PyArray r, h') /\
    arrays scenario_heap !! r = None /\
    arrays h' !! r = Some (FloatArray out) /\
    forall i j z, at2 [[-100; 16; 64; 200]] i j = Some z ->
      at2 out i j =
        Some (SFsub 53 1024
                (SFmul 53 1024 (S754_finite false 4503599627370496 (-51))
                   (binary_normalize 53 1024 z 0 false))
                (S754_finite false 4503599627370496 (-42))).
Proof.
  destruct FilterTransformToHU_dispatch_rescales as [Hgen _].
  destruct (Hgen (__init__ FilterTransformToHU) scenario_ds 0%nat scenario_heap
              (IntArray int16 [[-100; 16; 64; 200]])
              (S754_finite false 4503599627370496 (-51))
              (S754_finite true 4503599627370496 (-42)))
    as (r & h' & out & Hrun & Hnew & Hout & _ & _ & _ & Hscen);
    [vm_compute; reflexivity | vm_compute; reflexivity | reflexivity |].
  exists r, h', out. split; [exact Hrun|]. split; [exact Hnew|].
  split; [exact Hout|].
  destruct (Hscen eq_refl eq_refl) as [Hint _].
  apply (Hint int16 [[-100; 16; 64; 200]] eq_refl).
Defined.

(** On the scenario frame the rescaled values are exactly -1224, -992, -896
    and -624. *)
Example FilterTransformToHU_dispatch_scenario :
  FilterTransformToHU_dispatch (__init__ FilterTransformToHU) scenario_ds 0%nat
    scenario_heap =
  Ok (PyArray 1%nat,
      mkHeap [IntArray int16 [[-100; 16; 64; 200]];
              FloatArray [f64_of_Z <$> [-1224; -992; -896; -624]]] []).
Proof. vm_compute. reflexivity. Qed.

(** C10: with both rescale attributes in the dataset, the method does not
    change the input array: after the call the input reference still holds
    the array it held before, every other array of the heap is as it was,
    and the result lives at a reference that did not exist before. *)
Theorem FilterTransformToHU_dispatch_preserves_input (self : filter_obj)
    (ds : dataset) (p : loc) (h : heap) (a : ndarray) (slope intercept : float64) :
  ds !! "RescaleSlope" = Some slope ->
  ds !! "RescaleIntercept" = Some intercept ->
  arrays h !! p = Some a ->
  exists (r : loc) (h' : heap),
    FilterTransformToHU_dispatch self ds p h = Ok (PyArray r, h') /\
    arrays h' !! p = Some a /\
    r <> p /\
    arrays h !! r = None /\
    is_Some (arrays h' !! r) /\
    (forall (q : loc) (x : ndarray),
       arrays h !! q = Some x -> arrays h' !! q = Some x) /\
    objects h' = objects h.
Proof.
  intros Hs Hi Ha.
  exists (length (arrays h)),
    (mkHeap (arrays h ++ [np_add_scalar (np_mul_scalar a slope) intercept]) (objects h)).
  split; [apply (FilterTransformToHU_dispatch_run self ds p h a slope intercept Hs Hi Ha)|].
  cbn [arrays objects].
  split; [apply lookup_app_l_Some; exact Ha|].
  split.
  { apply lookup_lt_Some in Ha. intros Heq. rewrite Heq in Ha.
    exact (Nat.lt_irrefl _ Ha). }
  split; [apply lookup_ge_None_2, Nat.le_refl|].
  split.
  { rewrite lookup_app_r by apply Nat.le_refl. rewrite Nat.sub_diag.
    eexists. reflexivity. }
  split; [|reflexivity].
  intros q x Hq. apply lookup_app_l_Some. exact Hq.
Qed.

Lemma FilterTransformToHU_dispatch_preserves_input_witness :
  exists (r : loc) (h' : heap),
    FilterTransformToHU_dispatch (__init__ FilterTransformToHU) scenario_ds 0%nat
      scenario_heap = Ok (PyArray r, h') /\
    arrays h' !! 0%nat = Some (IntArray int16 [[-100; 16; 64; 200]]) /\
    r <> 0%nat /\
    arrays scenario_heap !! r = None /\
    is_Some (arrays h' !! r) /\
    (forall (q : loc) (x : ndarray),
       arrays scenario_heap !! q = Some x -> arrays h' !! q = Some x) /\
    objects h' = objects scenario_heap.
Proof.
  apply (FilterTransformToHU_dispatch_preserves_input (__init__ FilterTransformToHU)
           scenario_ds 0%nat scenario_heap (IntArray int16 [[-100; 16; 64; 200]])
           f64_two f64_neg1024).
  - vm_compute. reflexivity.
  - vm_compute. reflexivity.
  - reflexivity.
Defined.

(** * Windowing *)

Lemma put_mask_map2d {T} (x : T) (test : T -> bool) (rows : list (list T)) :
  put_mask x rows (map2d test rows) = map2d (fun v => if test v then x else v) rows.
Proof.
  unfold put_mask, map2d.
  induction rows as [|row rows IH]; [reflexivity|].
  cbn. rewrite IH. f_equal.
  clear IH. induction row as [|v row IHrow]; [reflexivity|].
  cbn. rewrite IHrow. reflexivity.
Qed.

Lemma map2d_map2d {A B C} (f : A -> B) (g : B -> C) (rows : list (list A)) :
  map2d g (map2d f rows) = map2d (fun v => g (f v)) rows.
Proof.
  unfold map2d. rewrite <- list_fmap_compose.
  apply list_fmap_ext. intros _ row _. cbn.
  rewrite <- list_fmap_compose. reflexivity.
Qed.

Lemma fits_raised (lo x : Z) (a : ndarray) : fits (raised lo a) x = fits a x.
Proof. destruct a; reflexivity. Qed.

Lemma window_first_step (lo : Z) (a : ndarray) :
  np_setitem_mask a (np_lt a lo) lo =
    if fits a lo then Ok (raised lo a) else Raise OverflowError.
Proof.
  destruct a as [t rows|rows]; cbn [np_setitem_mask np_lt fits raised].
  - destruct (in_range t lo); [|reflexivity]. rewrite put_mask_map2d. reflexivity.
  - rewrite put_mask_map2d. reflexivity.
Qed.

Lemma window_second_step (lo hi : Z) (a : ndarray) :
  np_setitem_mask (raised lo a) (np_gt (raised lo a) hi) hi =
    if fits a hi then Ok (windowed lo hi a) else Raise OverflowError.
Proof.
  destruct a as [t rows|rows];
    cbn [np_setitem_mask np_gt fits raised windowed].
  - destruct (in_range t hi); [|reflexivity].
    rewrite put_mask_map2d, map2d_map2d. reflexivity.
  - rewrite put_mask_map2d, map2d_map2d. reflexivity.
Qed.

Lemma windowed_shape (lo hi : Z) (a : ndarray) :
  shape (windowed lo hi a) = shape a.
Proof. destruct a; cbn [windowed shape]; apply map2d_shape. Qed.

(** The three ways the two assignments can end. *)
Lemma FilterWindowing_dispatch_steps (self : filter_obj) (wp : WindowingProperties)
    (ds : dataset) (p : loc) (h : heap) (a : ndarray) :
  props self = PropWindowing wp ->
  arrays h !! p = Some a ->
  FilterWindowing_dispatch self ds p h =
    if fits a (level wp - width wp `div` 2) then
      if fits a (level wp + width wp `div` 2) then
        Ok (PyArray p,
            mkHeap (<[p := windowed (level wp - width wp `div` 2)
                                    (level wp + width wp `div` 2) a]> (arrays h))
                   (objects h))
      else Raise OverflowError
    else Raise OverflowError.
Proof.
  intros Hp Ha. unfold FilterWindowing_dispatch, windowing_properties.
  rewrite Hp. unfold bind, ret, load, lift, store. rewrite Ha.
  rewrite window_first_step.
  destruct (fits a (level wp - width wp `div` 2)); [|reflexivity].
  cbn [arrays objects].
  rewrite list_lookup_insert_eq by (apply lookup_lt_Some in Ha; exact Ha).
  rewrite window_second_step.
  destruct (fits a (level wp + width wp `div` 2)); [|reflexivity].
  cbn [arrays objects]. rewrite list_insert_insert_eq. reflexivity.
Qed.

Lemma FilterWindowing_dispatch_run (self : filter_obj) (wp : WindowingProperties)
    (ds : dataset) (p : loc) (h : heap) (a : ndarray) :
  props self = PropWindowing wp ->
  arrays h !! p = Some a ->
  fits a (level wp - width wp `div` 2) = true ->
  fits a (level wp + width wp `div` 2) = true ->
  FilterWindowing_dispatch self ds p h =
    Ok (PyArray p,
        mkHeap (<[p := windowed (level wp - width wp `div` 2)
                                (level wp + width wp `div` 2) a]> (arrays h))
               (objects h)).
Proof.
  intros Hp Ha Hlo Hhi.
  rewrite (FilterWindowing_dispatch_steps self wp ds p h a Hp Ha), Hlo, Hhi.
  reflexivity.
Qed.

Lemma clamp_Z_ordered (lo hi v : Z) :
  lo <= hi ->
  (v < lo -> clamp lo hi v = lo) /\
  (hi < v -> clamp lo hi v = hi) /\
  (lo <= v <= hi -> clamp lo hi v = v).
Proof.
  intros Hle. unfold clamp. cbn [pix_ltb pix_of_int Pixel_Z].
  repeat split; intros Hv;
    destruct (v <? lo) eqn:H1;
    try (apply Z.ltb_lt in H1); try (apply Z.ltb_ge in H1); try lia.
  all: match goal with
       | |- context [?x <? ?y] =>
           destruct (x <? y) eqn:H2;
           try (apply Z.ltb_lt in H2); try (apply Z.ltb_ge in H2); lia
       end.
Qed.

(** C6, as stated, fails: an unsigned 16-bit frame cannot hold the lower
    bound [10 - 40 // 2 = -10], and the masked assignment raises
    [OverflowError] instead of clamping. *)
Lemma FilterWindowing_dispatch_counterexample :
  FilterWindowing_dispatch
    (mkFilter FilterWindowing (PropWindowing {| level := 10; width := 40 |}))
    ∅ 0%nat (mkHeap [IntArray uint16 [[0; 16; 64; 200]]] []) =
  Raise OverflowError.
Proof. vm_compute. reflexivity. Qed.

(** C6 (amended): for every pixel array whose element type can hold both
    bounds (an integer array when [min] and [max] lie in the range of its
    element type, a float array when they convert to finite floats), the
    Windowing filter takes
    [min = level - width // 2] and [max = level + width // 2] with floor
    division, raises every element below [min] to [min] and then lowers
    every element above [max] to [max], writes the result into the buffer of
    the input array and returns the reference it was given.  On an integer
    array with a window that is not inverted, an element below [min] ends at
    [min], one above [max] at [max], and one in between is kept.  With level
    40 and width 48 the frame [-100, 16, 64, 200] becomes [16, 16, 64, 64],
    as integers and as floats. *)
Theorem FilterWindowing_dispatch_clamps :
  (forall (self : filter_obj) (wp : WindowingProperties) (ds : dataset)
          (p : loc) (h : heap) (a : ndarray),
     props self = PropWindowing wp ->
     arrays h !! p = Some a ->
     let img_min := level wp - width wp `div` 2 in
     let img_max := level wp + width wp `div` 2 in
     holds a img_min = true ->
     holds a img_max = true ->
     exists (h' : heap) (a' : ndarray),
       FilterWindowing_dispatch self ds p h = Ok (PyArray p, h') /\
       arrays h' = <[p := a']> (arrays h) /\
       arrays h' !! p = Some a' /\
       shape a' = shape a /\
       objects h' = objects h /\
       (forall t (rows : list (list Z)), a = IntArray t rows ->
          exists rows', a' = IntArray t rows' /\
            forall (i j v : Z), at2 rows i j = Some v ->
              exists w, at2 rows' i j = Some w /\
                w = (let u := if v <? img_min then img_min else v in
                     if img_max <? u then img_max else u) /\
                (0 <= width wp ->
                   (v < img_min -> w = img_min) /\
                   (img_max < v -> w = img_max) /\
                   (img_min <= v <= img_max -> w = v))) /\
       (forall rows : list (list float64), a = FloatArray rows ->
          exists rows', a' = FloatArray rows' /\
            forall (i j : Z) (v : float64), at2 rows i j = Some v ->
              at2 rows' i j =
                Some (let lo := binary_normalize 53 1024 img_min 0 false in
                      let hi := binary_normalize 53 1024 img_max 0 false in
                      let u := if SFltb v lo then lo else v in
                      if SFltb hi u then hi else u))) /\
  FilterWindowing_dispatch
    (mkFilter FilterWindowing (PropWindowing {| level := 40; width := 48 |}))
    ∅ 0%nat (mkHeap [IntArray int16 [[-100; 16; 64; 200]]] []) =
  Ok (PyArray 0%nat, mkHeap [IntArray int16 [[16; 16; 64; 64]]] []) /\
  FilterWindowing_dispatch
    (mkFilter FilterWindowing (PropWindowing {| level := 40; width := 48 |}))
    ∅ 0%nat
    (mkHeap [FloatArray [[S754_finite true 7036874417766400 (-46);
                          S754_finite false 4503599627370496 (-48);
                          S754_finite false 4503599627370496 (-46);
                          S754_finite false 7036874417766400 (-45)]]] []) =
  Ok (PyArray 0%nat,
      mkHeap [FloatArray [[S754_finite false 4503599627370496 (-48);
                           S754_finite false 4503599627370496 (-48);
                           S754_finite false 4503599627370496 (-46);
                           S754_finite false 4503599627370496 (-46)]]] []).
Proof.
  split; [|split; vm_compute; reflexivity].
  intros self wp ds p h a Hp Ha img_min img_max Hmin Hmax.
  assert (Hlo : fits a img_min = true)
    by (destruct a; [exact Hmin | reflexivity]).
  assert (Hhi : fits a img_max = true)
    by (destruct a; [exact Hmax | reflexivity]).
  exists (mkHeap (<[p := windowed img_min img_max a]> (arrays h)) (objects h)),
    (windowed img_min img_max a).
  split; [apply (FilterWindowing_dispatch_run self wp ds p h a Hp Ha Hlo Hhi)|].
  cbn [arrays objects].
  split; [reflexivity|].
  split; [apply list_lookup_insert_eq; apply lookup_lt_Some in Ha; exact Ha|].
  split; [apply windowed_shape|].
  split; [reflexivity|].
  split.
  - intros t rows ->. eexists. split; [reflexivity|].
    intros i j v Hv. exists (clamp img_min img_max v).
    split; [rewrite at2_map2d, Hv; reflexivity|].
    split; [reflexivity|].
    intros Hw. apply clamp_Z_ordered.
    assert (0 <= width wp `div` 2) by (apply Z.div_pos; lia).
    subst img_min img_max. lia.
  - intros rows ->. eexists. split; [reflexivity|].
    intros i j v Hv. rewrite at2_map2d, Hv. reflexivity.
Qed.

Lemma FilterWindowing_dispatch_clamps_witness :
  exists (h' : heap) (a' : ndarray),
    FilterWindowing_dispatch (__init__ FilterWindowing) ∅ 0%nat scenario_heap =
      Ok (PyArray 0%nat, h') /\
    arrays h' !! 0%nat = Some a' /\
    a' = IntArray int16 [[28; 28; 64; 68]].
Proof.
  destruct FilterWindowing_dispatch_clamps as [Hgen _].
  destruct (Hgen (__init__ FilterWindowing) {| width := 40; level := 48 |} ∅ 0%nat
              scenario_heap (IntArray int16 [[-100; 16; 64; 200]])
              eq_refl eq_refl eq_refl eq_refl)
    as (h' & a' & Hrun & Heq & Hp & _).
  exists h', a'. split; [exact Hrun|]. split; [exact Hp|].
  assert (Hrun' : FilterWindowing_dispatch (__init__ FilterWindowing) ∅ 0%nat
                    scenario_heap =
                  Ok (PyArray 0%nat, mkHeap [IntArray int16 [[28; 28; 64; 68]]] []))
    by (vm_compute; reflexivity).
  rewrite Hrun in Hrun'. injection Hrun' as ->. cbn in Hp. congruence.
Defined.

(** * Morphology *)

Section MorphologyFacts.
Context {T : Type} `{Pixel T}.

Lemma at2_morph_pass (sel : T -> T -> T) (offs : list (Z * Z))
    (rows : list (list T)) (i j : Z) :
  at2 (morph_pass sel offs rows) i j =
    (fun v => select sel v
                (omap (fun d : Z * Z => at2 rows (i + d.1) (j + d.2)) offs))
      <$> at2 rows i j.
Proof.
  unfold at2 at 1 3, morph_pass.
  destruct (i <? 0) eqn:Hi; [reflexivity|].
  destruct (j <? 0) eqn:Hj; [reflexivity|].
  apply Z.ltb_ge in Hi, Hj. cbn [orb].
  rewrite list_lookup_imap.
  destruct (rows !! Z.to_nat i) as [row|]; [|reflexivity].
  cbn. rewrite list_lookup_imap, !Z2Nat.id by assumption. reflexivity.
Qed.

Lemma morph_pass_shape (sel : T -> T -> T) (offs : list (Z * Z))
    (rows : list (list T)) :
  length <$> morph_pass sel offs rows = length <$> rows.
Proof.
  unfold morph_pass. apply list_eq. intros i.
  rewrite !list_lookup_fmap, list_lookup_imap.
  destruct (rows !! i) as [row|]; [|reflexivity].
  cbn. rewrite length_imap. reflexivity.
Qed.

Lemma iter_morph_pass_shape (sel : T -> T -> T) (offs : list (Z * Z)) (n : nat)
    (rows : list (list T)) :
  length <$> Nat.iter n (morph_pass sel offs) rows = length <$> rows.
Proof.
  induction n as [|n IH]; [reflexivity|].
  cbn [Nat.iter nat_rect]. rewrite morph_pass_shape. exact IH.
Qed.

Lemma morph_rows_ones (sel : T -> T -> T) (mp : FilterMorphologyProperties)
    (rows : list (list T)) :
  0 < kernel_x mp -> 0 < kernel_y mp -> 0 <= iterations mp ->
  morph_rows sel (ones mp) (iterations mp) rows =
    Ok (Nat.iter (Z.to_nat (iterations mp))
          (morph_pass sel (kernel_offsets (ones mp))) rows).
Proof.
  intros Hx Hy Hn. unfold morph_rows.
  assert (Hi : (iterations mp <? 0) = false) by (apply Z.ltb_ge; lia).
  rewrite Hi. unfold ones.
  destruct (Z.to_nat (kernel_x mp)) as [|nx] eqn:Ex; [lia|].
  destruct (Z.to_nat (kernel_y mp)) as [|ny] eqn:Ey; [lia|].
  reflexivity.
Qed.
End MorphologyFacts.

Lemma morphed_shape (dilate : bool) (mp : FilterMorphologyProperties) (a : ndarray) :
  shape (morphed dilate mp a) = shape a.
Proof. destruct a; cbn [morphed shape]; apply iter_morph_pass_shape. Qed.

Lemma np_ones_positive (mp : FilterMorphologyProperties) (a : ndarray) :
  0 < kernel_x mp -> 0 < kernel_y mp ->
  np_ones (kernel_x mp) (kernel_y mp) (np_dtype a) =
    Ok (match a with
        | IntArray t _ => IntArray t (ones mp)
        | FloatArray _ => FloatArray (ones mp)
        end).
Proof.
  intros Hx Hy. unfold np_ones.
  assert (Hnx : (kernel_x mp <? 0) = false) by (apply Z.ltb_ge; lia).
  assert (Hny : (kernel_y mp <? 0) = false) by (apply Z.ltb_ge; lia).
  rewrite Hnx, Hny. destruct a; reflexivity.
Qed.

(** What a morphology filter does to the heap, for parameters in the
    documented domain. *)
Lemma cv_morph_run (dilate : bool) (mp : FilterMorphologyProperties) (p : loc)
    (h : heap) (a : ndarray) :
  0 < kernel_x mp -> 0 < kernel_y mp -> 0 <= iterations mp ->
  arrays h !! p = Some a ->
  cv_morph dilate p
    (match a with
     | IntArray t _ => IntArray t (ones mp)
     | FloatArray _ => FloatArray (ones mp)
     end) p (iterations mp) h =
  Ok (tt, mkHeap (<[p := morphed dilate mp a]> (arrays h)) (objects h)).
Proof.
  intros Hx Hy Hn Ha. unfold cv_morph, bind, load, lift, store. rewrite Ha.
  destruct a as [t rows|rows]; cbn [morphed];
    rewrite morph_rows_ones by assumption; reflexivity.
Qed.

Lemma morphology_dispatch_run (self : filter_obj) (mp : FilterMorphologyProperties)
    (ds : dataset) (p : loc) (h : heap) (a : ndarray) :
  isInplaceOp self = true ->
  props self = PropMorphology mp ->
  0 < kernel_x mp -> 0 < kernel_y mp -> 0 <= iterations mp ->
  arrays h !! p = Some a ->
  dispatch self ds p h =
    Ok (PyNone,
        mkHeap (<[p := morphed (is_dilate (cls self)) mp a]>
                  (arrays h))
               (objects h)).
Proof.
  intros Hin Hp Hx Hy Hn Ha. unfold dispatch, isInplaceOp in *.
  destruct (cls self) eqn:Hc; cbn in Hin; try discriminate.
  - unfold FilterMorphologyDilate_dispatch, morphology_properties. rewrite Hp.
    unfold bind at 1 2 3. cbn [ret]. unfold load at 1. rewrite Ha.
    unfold lift. rewrite np_ones_positive by assumption.
    unfold bind, cv_dilate. rewrite (cv_morph_run true mp p h a) by assumption.
    reflexivity.
  - unfold FilterMorphologyErode_dispatch, morphology_properties. rewrite Hp.
    unfold bind at 1 2 3. cbn [ret]. unfold load at 1. rewrite Ha.
    unfold lift. rewrite np_ones_positive by assumption.
    unfold bind, cv_erode. rewrite (cv_morph_run false mp p h a) by assumption.
    reflexivity.
Qed.

(** C4, as stated, fails: the default Dilate filter is an inplace filter,
    and its [dispatch] returns [None], not the reference it received. *)
Lemma inplace_dispatch_returns_counterexample :
  let self := __init__ FilterMorphologyDilate in
  let h := mkHeap [IntArray int16 [[0; 0; 0]; [0; 1; 0]; [0; 0; 0]]] [] in
  isInplaceOp self = true /\
  dispatch self ∅ 0%nat h =
    Ok (PyNone, mkHeap [IntArray int16 [[1; 1; 1]; [1; 1; 1]; [1; 1; 1]]] []) /\
  forall h', dispatch self ∅ 0%nat h <> Ok (PyArray 0%nat, h').
Proof.
  cbn zeta. split; [reflexivity|].
  assert (Hrun : dispatch (__init__ FilterMorphologyDilate) ∅ 0%nat
            (mkHeap [IntArray int16 [[0; 0; 0]; [0; 1; 0]; [0; 0; 0]]] []) =
          Ok (PyNone, mkHeap [IntArray int16 [[1; 1; 1]; [1; 1; 1]; [1; 1; 1]]] []))
    by (vm_compute; reflexivity).
  split; [exact Hrun|].
  intros h' Heq. rewrite Hrun in Heq. discriminate Heq.
Qed.

(** C4 (amended): for every inplace filter (MorphologyDilate and
    MorphologyErode, whose [isInplaceOp] returns true), with positive kernel
    sizes and a non-negative iteration count, and every pixel array,
    [dispatch] writes the filter's result into the buffer of the array it
    received, so that the caller's reference now holds the result with the
    shape unchanged, touches no other array and no filter object, and
    returns [None]. *)
Theorem inplace_dispatch_mutates_and_returns_None (self : filter_obj)
    (mp : FilterMorphologyProperties) (ds : dataset) (p : loc) (h : heap)
    (a : ndarray) :
  isInplaceOp self = true ->
  props self = PropMorphology mp ->
  0 < kernel_x mp -> 0 < kernel_y mp -> 0 <= iterations mp ->
  arrays h !! p = Some a ->
  (cls self = FilterMorphologyDilate \/ cls self = FilterMorphologyErode) /\
  exists h' : heap,
    dispatch self ds p h = Ok (PyNone, h') /\
    arrays h' !! p = Some (morphed (is_dilate (cls self)) mp a) /\
    shape (morphed (is_dilate (cls self)) mp a) = shape a /\
    length (arrays h') = length (arrays h) /\
    (forall q : loc, q <> p -> arrays h' !! q = arrays h !! q) /\
    objects h' = objects h.
Proof.
  intros Hin Hp Hx Hy Hn Ha. split.
  { unfold isInplaceOp in Hin. destruct (cls self); cbn in Hin;
      try discriminate; [left|right]; reflexivity. }
  eexists. split; [apply (morphology_dispatch_run self mp ds p h a); assumption|].
  cbn [arrays objects].
  split; [apply list_lookup_insert_eq; apply lookup_lt_Some in Ha; exact Ha|].
  split; [apply morphed_shape|].
  split; [apply length_insert|].
  split; [|reflexivity].
  intros q Hq. apply list_lookup_insert_ne. congruence.
Qed.

Lemma inplace_dispatch_mutates_and_returns_None_witness :
  exists h' : heap,
    dispatch (__init__ FilterMorphologyErode) ∅ 0%nat scenario_heap = Ok (PyNone, h') /\
    arrays h' !! 0%nat =
      Some (morphed false {| kernel_x := 5; kernel_y := 5; iterations := 1 |}
              (IntArray int16 [[-100; 16; 64; 200]])).
Proof.
  destruct (inplace_dispatch_mutates_and_returns_None (__init__ FilterMorphologyErode)
              {| kernel_x := 5; kernel_y := 5; iterations := 1 |} ∅ 0%nat
              scenario_heap (IntArray int16 [[-100; 16; 64; 200]])
              eq_refl eq_refl ltac:(cbn; lia) ltac:(cbn; lia) ltac:(cbn; lia) eq_refl)
    as (_ & h' & Hrun & Hp & _).
  exists h'. split; [exact Hrun | exact Hp].
Defined.

(** ** The neighbourhood of an all-ones structuring element *)

Lemma kernel_offsets_ones (mp : FilterMorphologyProperties) (d : Z * Z) :
  0 < kernel_x mp -> 0 < kernel_y mp ->
  d ∈ kernel_offsets (ones (T:=Z) mp) <->
  - (kernel_x mp `div` 2) <= d.1 < kernel_x mp - kernel_x mp `div` 2 /\
  - (kernel_y mp `div` 2) <= d.2 < kernel_y mp - kernel_y mp `div` 2.
Proof.
  intros Hx Hy. unfold kernel_offsets, ones.
  rewrite length_replicate, Z2Nat.id by lia.
  assert (Hhead : head (replicate (Z.to_nat (kernel_x mp))
                     (replicate (Z.to_nat (kernel_y mp)) (pix_of_int (T:=Z) 1))) =
                  Some (replicate (Z.to_nat (kernel_y mp)) (pix_of_int 1))).
  { apply head_replicate_Some. lia. }
  rewrite Hhead. cbn [default]. unfold id at 2.
  rewrite length_replicate, Z2Nat.id by lia.
  rewrite list_elem_of_join. split.
  - intros (l & Hd & Hl).
    apply elem_of_lookup_imap in Hl as (a & row & -> & Ha).
    apply lookup_replicate in Ha as [-> Ha].
    apply list_elem_of_omap in Hd as (x & Hx' & Hid).
    apply elem_of_lookup_imap in Hx' as (b & v & -> & Hb).
    apply lookup_replicate in Hb as [-> Hb].
    cbn in Hid. injection Hid as <-. cbn [fst snd]. lia.
  - intros [H1 H2].
    set (a := Z.to_nat (d.1 + kernel_x mp `div` 2)).
    set (b := Z.to_nat (d.2 + kernel_y mp `div` 2)).
    eexists. split; cycle 1.
    { apply elem_of_lookup_imap.
      exists a, (replicate (Z.to_nat (kernel_y mp)) (pix_of_int 1)).
      split; [reflexivity|]. apply lookup_replicate_2. subst a. lia. }
    cbn beta. apply list_elem_of_omap. exists (Some d). split; [|reflexivity].
    apply elem_of_lookup_imap. exists b, (pix_of_int 1).
    split; [|apply lookup_replicate_2; subst b; lia].
    cbn. destruct d as [d1 d2]. cbn [fst snd] in *.
    subst a b. rewrite !Z2Nat.id by lia. do 2 f_equal; lia.
Qed.

(** ** Maximum and minimum over the neighbours, on integers *)

Lemma pix_max_Z (a b : Z) : pix_max a b = Z.max a b.
Proof.
  unfold pix_max. cbn [pix_ltb Pixel_Z].
  destruct (a <? b) eqn:Hab;
    [apply Z.ltb_lt in Hab | apply Z.ltb_ge in Hab]; lia.
Qed.

Lemma pix_min_Z (a b : Z) : pix_min a b = Z.min a b.
Proof.
  unfold pix_min. cbn [pix_ltb Pixel_Z].
  destruct (b <? a) eqn:Hab;
    [apply Z.ltb_lt in Hab | apply Z.ltb_ge in Hab]; lia.
Qed.

Lemma foldr_max_spec (n : Z) (ns : list Z) :
  foldr pix_max n ns ∈ n :: ns /\
  forall u, u ∈ n :: ns -> u <= foldr pix_max n ns.
Proof.
  induction ns as [|m ns [IHin IHub]]; cbn [foldr].
  - split; [left|]. intros u Hu. apply list_elem_of_singleton in Hu. lia.
  - rewrite pix_max_Z. split.
    + destruct (Z.max_spec m (foldr pix_max n ns)) as [[_ ->]|[_ ->]].
      * apply elem_of_cons in IHin as [->|Hin]; [left|do 2 right; exact Hin].
      * right. left.
    + intros u Hu. apply elem_of_cons in Hu as [->|Hu].
      * specialize (IHub n ltac:(left)). lia.
      * apply elem_of_cons in Hu as [->|Hu]; [lia|].
        specialize (IHub u ltac:(right; exact Hu)). lia.
Qed.

Lemma foldr_min_spec (n : Z) (ns : list Z) :
  foldr pix_min n ns ∈ n :: ns /\
  forall u, u ∈ n :: ns -> foldr pix_min n ns <= u.
Proof.
  induction ns as [|m ns [IHin IHub]]; cbn [foldr].
  - split; [left|]. intros u Hu. apply list_elem_of_singleton in Hu. lia.
  - rewrite pix_min_Z. split.
    + destruct (Z.min_spec m (foldr pix_min n ns)) as [[_ ->]|[_ ->]].
      * right. left.
      * apply elem_of_cons in IHin as [->|Hin]; [left|do 2 right; exact Hin].
    + intros u Hu. apply elem_of_cons in Hu as [->|Hu].
      * specialize (IHub n ltac:(left)). lia.
      * apply elem_of_cons in Hu as [->|Hu]; [lia|].
        specialize (IHub u ltac:(right; exact Hu)). lia.
Qed.

(** The value selected by a dilation is one of the neighbours and bounds
    them all from above; dually for an erosion. *)
Lemma select_max_spec (v : Z) (ns : list Z) :
  ns <> [] ->
  select pix_max v ns ∈ ns /\ forall u, u ∈ ns -> u <= select pix_max v ns.
Proof.
  destruct ns as [|n ns]; [congruence|]. intros _. apply foldr_max_spec.
Qed.

Lemma select_min_spec (v : Z) (ns : list Z) :
  ns <> [] ->
  select pix_min v ns ∈ ns /\ forall u, u ∈ ns -> select pix_min v ns <= u.
Proof.
  destruct ns as [|n ns]; [congruence|]. intros _. apply foldr_min_spec.
Qed.

(** ** Grids given by a function *)

Lemma grid_of_shape {T} (h w : nat) (f : Z -> Z -> T) :
  length <$> grid_of h w f = replicate h w.
Proof.
  unfold grid_of. apply list_eq. intros i.
  rewrite !list_lookup_fmap.
  destruct (decide (i < h)%nat) as [Hi|Hi].
  - rewrite lookup_seq_lt, lookup_replicate_2 by assumption.
    cbn. rewrite length_fmap, length_seq. reflexivity.
  - rewrite lookup_seq_ge by lia. symmetry. apply lookup_replicate_None. lia.
Qed.

Lemma inb_true (h w : nat) (i j : Z) :
  inb h w i j = true <-> 0 <= i < Z.of_nat h /\ 0 <= j < Z.of_nat w.
Proof.
  unfold inb. rewrite !andb_true_iff, !Z.leb_le, !Z.ltb_lt. lia.
Qed.

Lemma at2_grid_of {T} (h w : nat) (f : Z -> Z -> T) (i j : Z) :
  at2 (grid_of h w f) i j = if inb h w i j then Some (f i j) else None.
Proof.
  destruct (inb h w i j) eqn:Hin.
  - apply inb_true in Hin as [Hi Hj].
    rewrite <- (Z2Nat.id i), <- (Z2Nat.id j) by lia.
    rewrite at2_nat. unfold grid_of.
    rewrite list_lookup_fmap, lookup_seq_lt by lia. cbn.
    rewrite list_lookup_fmap, lookup_seq_lt by lia. reflexivity.
  - destruct (Z_lt_dec i 0) as [Hi|Hi]; [apply at2_negative; lia|].
    destruct (Z_lt_dec j 0) as [Hj|Hj]; [apply at2_negative; lia|].
    rewrite <- (Z2Nat.id i), <- (Z2Nat.id j) by lia.
    rewrite at2_nat. unfold grid_of. rewrite list_lookup_fmap.
    destruct (decide (Z.to_nat i < h)%nat) as [Hih|Hih].
    + rewrite lookup_seq_lt by assumption. cbn.
      rewrite list_lookup_fmap, lookup_seq_ge; [reflexivity|].
      destruct (decide (Z.to_nat j < w)%nat) as [Hjw|Hjw]; [|lia].
      assert (Htrue : inb h w i j = true) by (apply inb_true; lia).
      congruence.
    + rewrite lookup_seq_ge by lia. reflexivity.
Qed.

(** Two grids of the same shape with the same elements are equal. *)
Lemma grid_eq {T} (rows1 rows2 : list (list T)) :
  length <$> rows1 = length <$> rows2 ->
  (forall i j : nat, at2 rows1 (Z.of_nat i) (Z.of_nat j) =
                     at2 rows2 (Z.of_nat i) (Z.of_nat j)) ->
  rows1 = rows2.
Proof.
  intros Hshape Hat. apply list_eq. intros i.
  assert (Hlen : (length <$> rows1) !! i = (length <$> rows2) !! i)
    by (rewrite Hshape; reflexivity).
  rewrite !list_lookup_fmap in Hlen.
  destruct (rows1 !! i) as [r1|] eqn:E1, (rows2 !! i) as [r2|] eqn:E2;
    cbn in Hlen; try discriminate; [|reflexivity].
  f_equal. apply list_eq. intros j.
  specialize (Hat i j). rewrite !at2_nat, E1, E2 in Hat. exact Hat.
Qed.

(** A pass over a grid given by a function is again such a grid. *)
Lemma morph_pass_grid_of (sel : Z -> Z -> Z) (offs : list (Z * Z)) (h w : nat)
    (f g : Z -> Z -> Z) :
  (forall i j, inb h w i j = true ->
     select sel (f i j)
       (omap (fun d : Z * Z => at2 (grid_of h w f) (i + d.1) (j + d.2)) offs) = g i j) ->
  morph_pass sel offs (grid_of h w f) = grid_of h w g.
Proof.
  intros Hsel. apply grid_eq.
  - rewrite morph_pass_shape, !grid_of_shape. reflexivity.
  - intros i j. rewrite at2_morph_pass, !at2_grid_of.
    destruct (inb h w (Z.of_nat i) (Z.of_nat j)) eqn:Hin; [|reflexivity].
    cbn. rewrite (Hsel _ _ Hin). reflexivity.
Qed.

Lemma neighbours_elem {T} (offs : list (Z * Z)) (rows : list (list T)) (i j : Z) (u : T) :
  u ∈ omap (fun d : Z * Z => at2 rows (i + d.1) (j + d.2)) offs <->
  exists d : Z * Z, d ∈ offs /\ at2 rows (i + d.1) (j + d.2) = Some u.
Proof. apply list_elem_of_omap. Qed.

Lemma neighbours_nonempty {T} (offs : list (Z * Z)) (rows : list (list T))
    (i j : Z) (v : T) :
  (0, 0) ∈ offs -> at2 rows i j = Some v ->
  omap (fun d : Z * Z => at2 rows (i + d.1) (j + d.2)) offs <> [].
Proof.
  intros H0 Hv Hnil.
  assert (Hin : v ∈ omap (fun d : Z * Z => at2 rows (i + d.1) (j + d.2)) offs).
  { apply neighbours_elem. exists (0, 0). split; [exact H0|].
    cbn [fst snd]. rewrite !Z.add_0_r. exact Hv. }
  rewrite Hnil in Hin. apply not_elem_of_nil in Hin. exact Hin.
Qed.

Lemma kernel_offsets_ones_centre (mp : FilterMorphologyProperties) :
  0 < kernel_x mp -> 0 < kernel_y mp -> (0, 0) ∈ kernel_offsets (ones (T:=Z) mp).
Proof.
  intros Hx Hy. apply kernel_offsets_ones; [assumption..|]. cbn [fst snd].
  assert (0 <= kernel_x mp `div` 2 < kernel_x mp)
    by (split; [apply Z.div_pos; lia | apply Z.div_lt; lia]).
  assert (0 <= kernel_y mp `div` 2 < kernel_y mp)
    by (split; [apply Z.div_pos; lia | apply Z.div_lt; lia]).
  lia.
Qed.

(** One pass of the dilation is the per-pixel maximum over the
    neighbourhood: the new value bounds every neighbour inside the array and
    is the value of one of them. *)
Lemma dilate_pass_maximum (mp : FilterMorphologyProperties) (rows : list (list Z))
    (i j v : Z) :
  0 < kernel_x mp -> 0 < kernel_y mp ->
  at2 rows i j = Some v ->
  exists w,
    at2 (morph_pass pix_max (kernel_offsets (ones (T:=Z) mp)) rows) i j = Some w /\
    (forall di dj u, in_kernel mp di dj ->
       at2 rows (i + di) (j + dj) = Some u -> u <= w) /\
    (exists di dj, in_kernel mp di dj /\ at2 rows (i + di) (j + dj) = Some w).
Proof.
  intros Hx Hy Hv.
  set (offs := kernel_offsets (ones (T:=Z) mp)).
  set (ns := omap (fun d : Z * Z => at2 rows (i + d.1) (j + d.2)) offs).
  assert (Hne : ns <> [])
    by (apply (neighbours_nonempty offs rows i j v);
        [apply kernel_offsets_ones_centre|]; assumption).
  destruct (select_max_spec v ns Hne) as [Hin Hub].
  exists (select pix_max v ns).
  split; [rewrite at2_morph_pass, Hv; reflexivity|]. split.
  - intros di dj u Hk Hu. apply Hub. apply neighbours_elem.
    exists (di, dj). split; [|exact Hu].
    apply kernel_offsets_ones; assumption.
  - apply neighbours_elem in Hin as ([di dj] & Hd & Hw).
    exists di, dj. split; [|exact Hw].
    apply (kernel_offsets_ones mp (di, dj)); assumption.
Qed.

(** Dually, one pass of the erosion is the per-pixel minimum. *)
Lemma erode_pass_minimum (mp : FilterMorphologyProperties) (rows : list (list Z))
    (i j v : Z) :
  0 < kernel_x mp -> 0 < kernel_y mp ->
  at2 rows i j = Some v ->
  exists w,
    at2 (morph_pass pix_min (kernel_offsets (ones (T:=Z) mp)) rows) i j = Some w /\
    (forall di dj u, in_kernel mp di dj ->
       at2 rows (i + di) (j + dj) = Some u -> w <= u) /\
    (exists di dj, in_kernel mp di dj /\ at2 rows (i + di) (j + dj) = Some w).
Proof.
  intros Hx Hy Hv.
  set (offs := kernel_offsets (ones (T:=Z) mp)).
  set (ns := omap (fun d : Z * Z => at2 rows (i + d.1) (j + d.2)) offs).
  assert (Hne : ns <> [])
    by (apply (neighbours_nonempty offs rows i j v);
        [apply kernel_offsets_ones_centre|]; assumption).
  destruct (select_min_spec v ns Hne) as [Hin Hub].
  exists (select pix_min v ns).
  split; [rewrite at2_morph_pass, Hv; reflexivity|]. split.
  - intros di dj u Hk Hu. apply Hub. apply neighbours_elem.
    exists (di, dj). split; [|exact Hu].
    apply kernel_offsets_ones; assumption.
  - apply neighbours_elem in Hin as ([di dj] & Hd & Hw).
    exists di, dj. split; [|exact Hw].
    apply (kernel_offsets_ones mp (di, dj)); assumption.
Qed.

(** ** Binary images *)

Lemma at2_binary (h w : nat) (f : Z -> Z -> bool) (i j : Z) :
  at2 (binary h w f) i j = if inb h w i j then Some (Z.b2z (f i j)) else None.
Proof. apply at2_grid_of. Qed.

Lemma binary_neighbour (offs : list (Z * Z)) (h w : nat) (f : Z -> Z -> bool)
    (i j u : Z) :
  u ∈ omap (fun d : Z * Z => at2 (binary h w f) (i + d.1) (j + d.2)) offs <->
  exists d : Z * Z,
    d ∈ offs /\ inb h w (i + d.1) (j + d.2) = true /\
    u = Z.b2z (f (i + d.1) (j + d.2)).
Proof.
  rewrite neighbours_elem. split.
  - intros (d & Hd & Hu). exists d. split; [exact Hd|].
    rewrite at2_binary in Hu.
    destruct (inb h w (i + d.1) (j + d.2)); [|discriminate].
    split; [reflexivity|]. congruence.
  - intros (d & Hd & Hin & ->). exists d. split; [exact Hd|].
    rewrite at2_binary, Hin. reflexivity.
Qed.

(** Dilating a binary image: a pixel is set when some neighbour inside the
    image is set. *)
Lemma dilate_binary (offs : list (Z * Z)) (h w : nat) (f g : Z -> Z -> bool) :
  (0, 0) ∈ offs ->
  (forall i j, inb h w i j = true ->
     (g i j = true <->
      exists d : Z * Z, d ∈ offs /\ inb h w (i + d.1) (j + d.2) = true /\
                        f (i + d.1) (j + d.2) = true)) ->
  morph_pass pix_max offs (binary h w f) = binary h w g.
Proof.
  intros H0 Hg. apply morph_pass_grid_of. intros i j Hin.
  fold (binary h w f).
  set (ns := omap (fun d : Z * Z => at2 (binary h w f) (i + d.1) (j + d.2)) offs).
  assert (Hne : ns <> []).
  { apply (neighbours_nonempty offs _ i j (Z.b2z (f i j))); [exact H0|].
    rewrite at2_binary, Hin. reflexivity. }
  destruct (select_max_spec (Z.b2z (f i j)) ns Hne) as [Hsel Hub].
  apply binary_neighbour in Hsel as (d & Hd & Hdin & Hw).
  destruct (g i j) eqn:Hgij.
  - apply (Hg i j Hin) in Hgij as (d' & Hd' & Hin' & Hf').
    assert (Hle : 1 <= select pix_max (Z.b2z (f i j)) ns).
    { apply Hub. apply binary_neighbour. exists d'.
      split; [exact Hd'|]. split; [exact Hin'|]. rewrite Hf'. reflexivity. }
    rewrite Hw in Hle |- *.
    destruct (f (i + d.1) (j + d.2)); cbn in *; [reflexivity|lia].
  - rewrite Hw. destruct (f (i + d.1) (j + d.2)) eqn:Hf; [|reflexivity].
    assert (Htrue : g i j = true) by (apply (Hg i j Hin); eauto).
    congruence.
Qed.

(** Eroding a binary image: a pixel stays set when every neighbour inside
    the image is set. *)
Lemma erode_binary (offs : list (Z * Z)) (h w : nat) (f g : Z -> Z -> bool) :
  (0, 0) ∈ offs ->
  (forall i j, inb h w i j = true ->
     (g i j = true <->
      forall d : Z * Z, d ∈ offs -> inb h w (i + d.1) (j + d.2) = true ->
                        f (i + d.1) (j + d.2) = true)) ->
  morph_pass pix_min offs (binary h w f) = binary h w g.
Proof.
  intros H0 Hg. apply morph_pass_grid_of. intros i j Hin.
  fold (binary h w f).
  set (ns := omap (fun d : Z * Z => at2 (binary h w f) (i + d.1) (j + d.2)) offs).
  assert (Hne : ns <> []).
  { apply (neighbours_nonempty offs _ i j (Z.b2z (f i j))); [exact H0|].
    rewrite at2_binary, Hin. reflexivity. }
  destruct (select_min_spec (Z.b2z (f i j)) ns Hne) as [Hsel Hlb].
  apply binary_neighbour in Hsel as (d & Hd & Hdin & Hw).
  destruct (g i j) eqn:Hgij.
  - rewrite Hw. rewrite (proj1 (Hg i j Hin) Hgij d Hd Hdin). reflexivity.
  - rewrite Hw. destruct (f (i + d.1) (j + d.2)) eqn:Hf; [|reflexivity].
    assert (Htrue : g i j = true).
    { apply (Hg i j Hin). intros d' Hd' Hin'.
      assert (Hle : select pix_min (Z.b2z (f i j)) ns <=
                    Z.b2z (f (i + d'.1) (j + d'.2))).
      { apply Hlb. apply binary_neighbour. exists d'. auto. }
      rewrite Hw in Hle.
      destruct (f (i + d'.1) (j + d'.2)); [reflexivity|cbn in Hle; lia]. }
    congruence.
Qed.

(** ** Dilation of a single pixel *)




(** The same scenario, evaluated: the pixel in the top row spreads to its
    neighbours inside the image only. *)
Example FilterMorphologyDilate_dispatch_single_pixel :
  FilterMorphologyDilate_dispatch
    (morphology_filter FilterMorphologyDilate 3 3 1) ∅ 0%nat
    (mkHeap [IntArray int16 [[0; 0; 1; 0; 0];
                       [0; 0; 0; 0; 0];
                       [0; 0; 0; 0; 0];
                       [0; 0; 0; 0; 0]]] []) =
  Ok (PyNone,
      mkHeap [IntArray int16 [[0; 1; 1; 1; 0];
                        [0; 1; 1; 1; 0];
                        [0; 0; 0; 0; 0];
                        [0; 0; 0; 0; 0]]] []).
Proof. vm_compute. reflexivity. Qed.

(** ** Dilation followed by erosion *)

Lemma in_region_true (hps : list half_plane) (i j a b c : Z) :
  in_region hps i j = true -> (a, b, c) ∈ hps -> a * i + b * j <= c.
Proof.
  unfold in_region. intros Hall Hin.
  rewrite forallb_forall in Hall.
  apply list_elem_of_In in Hin. specialize (Hall _ Hin). cbn in Hall.
  apply Z.leb_le in Hall. exact Hall.
Qed.

Lemma in_region_false (hps : list half_plane) (i j : Z) :
  in_region hps i j = false ->
  exists a b c, (a, b, c) ∈ hps /\ c < a * i + b * j.
Proof.
  unfold in_region. induction hps as [|[[a b] c] hps IH]; [discriminate|].
  cbn [forallb]. intros Hf. apply andb_false_iff in Hf as [Hf|Hf].
  - exists a, b, c. split; [left|]. cbn in Hf. apply Z.leb_gt in Hf. exact Hf.
  - destruct (IH Hf) as (a' & b' & c' & Hin & Hlt).
    exists a', b', c'. split; [right; exact Hin | exact Hlt].
Qed.

(** Moving [r] steps away from a violated inequality, but not past the
    border: the neighbourhood of the point reached contains no point of a
    region that is clear of the border. *)
Lemma push_coordinate (n r a i : Z) :
  0 <= r -> 0 <= i < n ->
  let q := Z.max 0 (Z.min (n - 1) (i + r * Z.sgn a)) in
  (- r <= q - i <= r /\ 0 <= q < n) /\
  (forall t, - r <= t <= r -> r + 1 <= q + t < n - r - 1 -> a * i <= a * (q + t)).
Proof.
  intros Hr Hi q. subst q.
  destruct (Z.sgn_spec a) as [[Ha ->]|[[Ha ->]|[Ha ->]]].
  - split; [lia|]. intros t Ht Hs.
    apply Z.mul_le_mono_nonneg_l; lia.
  - subst a. split; [lia|]. intros t _ _. lia.
  - split; [lia|]. intros t Ht Hs.
    apply Z.mul_le_mono_nonpos_l; lia.
Qed.

Lemma odd_kernel_offsets (hx hy : Z) (n : Z) (d : Z * Z) :
  0 <= hx -> 0 <= hy ->
  d ∈ kernel_offsets
        (ones (T:=Z)
           {| kernel_x := 2 * hx + 1; kernel_y := 2 * hy + 1; iterations := n |}) <->
  (- hx <= d.1 <= hx) /\ (- hy <= d.2 <= hy).
Proof.
  intros Hx Hy. rewrite kernel_offsets_ones by (cbn; lia).
  cbn [kernel_x kernel_y].
  assert (Hdx : (2 * hx + 1) `div` 2 = hx)
    by (symmetry; apply (Z.div_unique_pos _ 2 hx 1); lia).
  assert (Hdy : (2 * hy + 1) `div` 2 = hy)
    by (symmetry; apply (Z.div_unique_pos _ 2 hy 1); lia).
  rewrite Hdx, Hdy. lia.
Qed.

(** Dilating and then eroding with the same odd-sized structuring element
    gives back a convex region that is clear of the border. *)
Lemma closing_convex_region (h w : nat) (hx hy n : Z) (hps : list half_plane) :
  0 <= hx -> 0 <= hy ->
  clear_of_border h w hx hy (in_region hps) ->
  let offs := kernel_offsets
                (ones (T:=Z)
                   {| kernel_x := 2 * hx + 1; kernel_y := 2 * hy + 1;
                      iterations := n |}) in
  morph_pass pix_min offs (morph_pass pix_max offs (binary h w (in_region hps))) =
  binary h w (in_region hps).
Proof.
  intros Hx Hy Hclear offs.
  assert (Hoffs : forall d : Z * Z,
            d ∈ offs <-> (- hx <= d.1 <= hx) /\ (- hy <= d.2 <= hy))
    by (intros d; apply odd_kernel_offsets; assumption).
  assert (H0 : (0, 0) ∈ offs) by (apply Hoffs; cbn; lia).
  set (f := in_region hps).
  set (g := fun i j : Z =>
              existsb (fun d : Z * Z =>
                         inb h w (i + d.1) (j + d.2) && f (i + d.1) (j + d.2)) offs).
  assert (Hg : forall i j,
            g i j = true <->
            exists d : Z * Z, d ∈ offs /\ inb h w (i + d.1) (j + d.2) = true /\
                              f (i + d.1) (j + d.2) = true).
  { intros i j. unfold g. rewrite existsb_exists. split.
    - intros (d & Hd & Hb). apply andb_true_iff in Hb.
      exists d. split; [apply list_elem_of_In; exact Hd | exact Hb].
    - intros (d & Hd & Hb). exists d.
      split; [apply list_elem_of_In; exact Hd | apply andb_true_iff; exact Hb]. }
  rewrite (dilate_binary offs h w f g H0) by (intros i j _; apply Hg).
  apply erode_binary; [exact H0|].
  intros i j Hij. split.
  - (* a pixel of the region is covered from each of its neighbours *)
    intros Hf d Hd Hdin. apply Hg.
    exists (- d.1, - d.2). cbn [fst snd].
    split; [apply Hoffs; apply Hoffs in Hd; cbn [fst snd]; lia|].
    replace (i + d.1 + - d.1) with i by lia.
    replace (j + d.2 + - d.2) with j by lia.
    split; assumption.
  - (* a background pixel has a neighbour the dilation did not reach *)
    intros Hall. destruct (f i j) eqn:Hf; [reflexivity|exfalso].
    apply in_region_false in Hf as (a & b & c & Hin & Hlt).
    apply inb_true in Hij as [Hi Hj].
    destruct (push_coordinate (Z.of_nat h) hx a i) as [[Hqi Hqib] Hai]; [lia..|].
    destruct (push_coordinate (Z.of_nat w) hy b j) as [[Hqj Hqjb] Hbj]; [lia..|].
    set (qi := Z.max 0 (Z.min (Z.of_nat h - 1) (i + hx * Z.sgn a))) in *.
    set (qj := Z.max 0 (Z.min (Z.of_nat w - 1) (j + hy * Z.sgn b))) in *.
    assert (Hd : (qi - i, qj - j) ∈ offs) by (apply Hoffs; cbn [fst snd]; lia).
    specialize (Hall (qi - i, qj - j) Hd). cbn [fst snd] in Hall.
    replace (i + (qi - i)) with qi in Hall by lia.
    replace (j + (qj - j)) with qj in Hall by lia.
    assert (Hq : inb h w qi qj = true) by (apply inb_true; lia).
    apply Hall, Hg in Hq as ([ti tj] & Ht & Hsin & Hs). cbn [fst snd] in Hsin, Hs.
    apply Hoffs in Ht as [Hti Htj]. cbn [fst snd] in Hti, Htj.
    destruct (Hclear _ _ Hsin Hs) as [Hmi Hmj].
    pose proof (in_region_true hps _ _ a b c Hs Hin) as Hle.
    specialize (Hai ti Hti ltac:(lia)). specialize (Hbj tj Htj ltac:(lia)). lia.
Qed.

(** C8, as stated, fails: a single pixel in the middle of a 3-by-3 image is
    a convex filled region, and dilating then eroding it with 3-by-3
    structuring elements leaves the whole image set. *)
Lemma dilate_then_erode_counterexample :
  let hps : list half_plane := [(1, 0, 1); (-1, 0, -1); (0, 1, 1); (0, -1, -1)] in
  let fd := morphology_filter FilterMorphologyDilate 3 3 1 in
  let fe := morphology_filter FilterMorphologyErode 3 3 1 in
  binary 3 3 (in_region hps) = [[0; 0; 0]; [0; 1; 0]; [0; 0; 0]] /\
  dilate_then_erode fd fe ∅ 0%nat (mkHeap [IntArray uint8 (binary 3 3 (in_region hps))] []) =
    Ok (PyNone, mkHeap [IntArray uint8 [[1; 1; 1]; [1; 1; 1]; [1; 1; 1]]] []) /\
  dilate_then_erode fd fe ∅ 0%nat (mkHeap [IntArray uint8 (binary 3 3 (in_region hps))] []) <>
    Ok (PyNone, mkHeap [IntArray uint8 (binary 3 3 (in_region hps))] []).
Proof.
  cbn zeta. split; [vm_compute; reflexivity|].
  split; [vm_compute; reflexivity|].
  vm_compute. intros Heq. discriminate Heq.
Qed.

(** With an even-sized structuring element the round trip moves the region:
    both operations read the same off-centre neighbourhood. *)
Example dilate_then_erode_even_kernel_shifts :
  dilate_then_erode (morphology_filter FilterMorphologyDilate 2 2 1)
    (morphology_filter FilterMorphologyErode 2 2 1) ∅ 0%nat
    (mkHeap [IntArray int16 [[0; 0; 0; 0; 0];
                       [0; 0; 0; 0; 0];
                       [0; 0; 1; 0; 0];
                       [0; 0; 0; 0; 0];
                       [0; 0; 0; 0; 0]]] []) =
  Ok (PyNone,
      mkHeap [IntArray int16 [[0; 0; 0; 0; 0];
                        [0; 0; 0; 0; 0];
                        [0; 0; 0; 0; 0];
                        [0; 0; 0; 1; 0];
                        [0; 0; 0; 0; 0]]] []).
Proof. vm_compute. reflexivity. Qed.

(** C8 (amended): for every binary array holding a convex filled region
    (the grid points of a finite system of linear inequalities) that keeps
    at least [k // 2 + 1] background pixels between itself and every border
    of the array, [k] being the kernel size along that axis, applying
    MorphologyDilate.dispatch followed by MorphologyErode.dispatch with
    identical odd kernel sizes and iterations=1 returns the array, and the
    whole heap, to its original contents. *)
Theorem dilate_then_erode_restores_region (fd fe : filter_obj) (ds : dataset)
    (p : loc) (hp : heap) (t : itype) (h w : nat) (hx hy : Z)
    (hps : list half_plane) :
  cls fd = FilterMorphologyDilate ->
  cls fe = FilterMorphologyErode ->
  props fd = PropMorphology
               {| kernel_x := 2 * hx + 1; kernel_y := 2 * hy + 1; iterations := 1 |} ->
  props fe = props fd ->
  0 <= hx -> 0 <= hy ->
  clear_of_border h w hx hy (in_region hps) ->
  arrays hp !! p = Some (IntArray t (binary h w (in_region hps))) ->
  dilate_then_erode fd fe ds p hp = Ok (PyNone, hp) /\
  exists hd : heap,
    dispatch fd ds p hp = Ok (PyNone, hd) /\
    dispatch fe ds p hd = Ok (PyNone, hp).
Proof.
  intros Hcd Hce Hpd Hpe Hx Hy Hclear Ha.
  set (mp := {| kernel_x := 2 * hx + 1; kernel_y := 2 * hy + 1; iterations := 1 |}) in *.
  set (a := IntArray t (binary h w (in_region hps))) in *.
  assert (Hlt : (p < length (arrays hp))%nat) by (apply lookup_lt_Some in Ha; exact Ha).
  assert (Hd : dispatch fd ds p hp =
               Ok (PyNone, mkHeap (<[p := morphed true mp a]> (arrays hp)) (objects hp))).
  { rewrite (morphology_dispatch_run fd mp ds p hp a); subst mp; cbn; try lia;
      try assumption.
    - rewrite Hcd. reflexivity.
    - unfold isInplaceOp. rewrite Hcd. reflexivity. }
  assert (He : dispatch fe ds p
                 (mkHeap (<[p := morphed true mp a]> (arrays hp)) (objects hp)) =
               Ok (PyNone, hp)).
  { rewrite (morphology_dispatch_run fe mp ds p _ (morphed true mp a));
      subst mp; cbn [kernel_x kernel_y iterations arrays objects]; try lia.
    - rewrite Hce. cbn [is_dilate]. rewrite list_insert_insert_eq.
      subst a. cbn [morphed iterations]. change (Z.to_nat 1) with 1%nat.
      cbn [Nat.iter nat_rect].
      rewrite closing_convex_region by assumption.
      rewrite list_insert_id by exact Ha. destruct hp; reflexivity.
    - unfold isInplaceOp. rewrite Hce. reflexivity.
    - rewrite Hpe. exact Hpd.
    - apply list_lookup_insert_eq. exact Hlt. }
  split.
  - unfold dilate_then_erode, bind. rewrite Hd. exact He.
  - eexists. split; [exact Hd | exact He].
Qed.

Lemma dilate_then_erode_restores_region_witness :
  let hps : list half_plane := [(1, 1, 7); (1, -1, 1); (-1, 1, 1); (-1, -1, -5)] in
  let hp := mkHeap [IntArray uint8 (binary 7 7 (in_region hps))] [] in
  binary 7 7 (in_region hps) =
    [[0; 0; 0; 0; 0; 0; 0];
     [0; 0; 0; 0; 0; 0; 0];
     [0; 0; 0; 1; 0; 0; 0];
     [0; 0; 1; 1; 1; 0; 0];
     [0; 0; 0; 1; 0; 0; 0];
     [0; 0; 0; 0; 0; 0; 0];
     [0; 0; 0; 0; 0; 0; 0]] /\
  dilate_then_erode (morphology_filter FilterMorphologyDilate 3 3 1)
    (morphology_filter FilterMorphologyErode 3 3 1) ∅ 0%nat hp = Ok (PyNone, hp).
Proof.
  cbn zeta. split; [vm_compute; reflexivity|].
  refine (proj1 (dilate_then_erode_restores_region
            (morphology_filter FilterMorphologyDilate 3 3 1)
            (morphology_filter FilterMorphologyErode 3 3 1) ∅ 0%nat
            (mkHeap [IntArray uint8 (binary 7 7
               (in_region [(1, 1, 7); (1, -1, 1); (-1, 1, 1); (-1, -1, -5)]))] [])
            uint8 7%nat 7%nat 1 1 [(1, 1, 7); (1, -1, 1); (-1, 1, 1); (-1, -1, -5)]
            eq_refl eq_refl eq_refl eq_refl _ _ _ eq_refl)); try lia.
  intros i j Hij Hreg. apply inb_true in Hij.
  unfold in_region in Hreg. cbn [forallb satisfies] in Hreg.
  rewrite !andb_true_iff, !Z.leb_le in Hreg. lia.
Defined.

(** * Beyond the single filters: what every [dispatch] does to the heap *)

(** ** The ways a [dispatch] can end *)

Lemma FilterTransformToHU_dispatch_cases (self : filter_obj) (ds : dataset)
    (p : loc) (h h' : heap) (r : pyobj) :
  FilterTransformToHU_dispatch self ds p h = Ok (r, h') ->
  (r = PyNone /\ h' = h /\
   (ds !! "RescaleSlope" = None \/ ds !! "RescaleIntercept" = None)) \/
  (exists a slope intercept,
     ds !! "RescaleSlope" = Some slope /\
     ds !! "RescaleIntercept" = Some intercept /\
     arrays h !! p = Some a /\
     r = PyArray (length (arrays h)) /\
     h' = mkHeap (arrays h ++ [np_add_scalar (np_mul_scalar a slope) intercept])
                 (objects h)).
Proof.
  intros Hrun.
  destruct (ds !! "RescaleSlope") as [slope|] eqn:Hs; cycle 1.
  { rewrite FilterTransformToHU_dispatch_missing in Hrun by (left; exact Hs).
    injection Hrun as <- <-. left. auto. }
  destruct (ds !! "RescaleIntercept") as [intercept|] eqn:Hi; cycle 1.
  { rewrite FilterTransformToHU_dispatch_missing in Hrun by (right; exact Hi).
    injection Hrun as <- <-. left. auto. }
  destruct (arrays h !! p) as [a|] eqn:Ha.
  - rewrite (FilterTransformToHU_dispatch_run self ds p h a slope intercept Hs Hi Ha)
      in Hrun.
    injection Hrun as <- <-. right. exists a, slope, intercept. auto.
  - unfold FilterTransformToHU_dispatch in Hrun.
    rewrite (hasattr_Some _ _ _ Hi), (hasattr_Some _ _ _ Hs) in Hrun.
    cbn [negb] in Hrun. unfold bind, getattr, load, ret in Hrun.
    rewrite Hs, Hi, Ha in Hrun. discriminate Hrun.
Qed.

Lemma FilterWindowing_dispatch_cases (self : filter_obj) (ds : dataset)
    (p : loc) (h h' : heap) (r : pyobj) :
  FilterWindowing_dispatch self ds p h = Ok (r, h') ->
  exists wp a,
    props self = PropWindowing wp /\
    arrays h !! p = Some a /\
    r = PyArray p /\
    h' = mkHeap (<[p := windowed (level wp - width wp `div` 2)
                                 (level wp + width wp `div` 2) a]> (arrays h))
                (objects h).
Proof.
  intros Hrun.
  destruct (props self) as [|wp|mp] eqn:Hp;
    try (unfold FilterWindowing_dispatch, windowing_properties, bind, raise in Hrun;
         rewrite Hp in Hrun; discriminate Hrun).
  destruct (arrays h !! p) as [a|] eqn:Ha.
  - rewrite (FilterWindowing_dispatch_steps self wp ds p h a Hp Ha) in Hrun.
    destruct (fits a (level wp - width wp `div` 2)); [|discriminate Hrun].
    destruct (fits a (level wp + width wp `div` 2)); [|discriminate Hrun].
    injection Hrun as <- <-. exists wp, a. auto.
  - unfold FilterWindowing_dispatch, windowing_properties, bind, ret, load in Hrun.
    rewrite Hp, Ha in Hrun. discriminate Hrun.
Qed.

(** A Windowing [dispatch] that returns had both bounds inside the range of
    the element type. *)
Lemma FilterWindowing_dispatch_fits (self : filter_obj) (wp : WindowingProperties)
    (ds : dataset) (p : loc) (h h' : heap) (r : pyobj) (a : ndarray) :
  props self = PropWindowing wp ->
  arrays h !! p = Some a ->
  FilterWindowing_dispatch self ds p h = Ok (r, h') ->
  fits a (level wp - width wp `div` 2) = true /\
  fits a (level wp + width wp `div` 2) = true.
Proof.
  intros Hp Ha Hrun.
  rewrite (FilterWindowing_dispatch_steps self wp ds p h a Hp Ha) in Hrun.
  destruct (fits a (level wp - width wp `div` 2)); [|discriminate Hrun].
  destruct (fits a (level wp + width wp `div` 2)); [|discriminate Hrun].
  split; reflexivity.
Qed.

(** A morphology [dispatch] that returns has written the morphed array. *)
Lemma morphology_dispatch_cases (self : filter_obj) (ds : dataset)
    (p : loc) (h h' : heap) (r : pyobj) :
  isInplaceOp self = true ->
  dispatch self ds p h = Ok (r, h') ->
  exists mp a,
    props self = PropMorphology mp /\
    arrays h !! p = Some a /\
    0 <= kernel_x mp /\ 0 <= kernel_y mp /\ 0 <= iterations mp /\
    r = PyNone /\
    h' = mkHeap (<[p := morphed (is_dilate (cls self)) mp a]> (arrays h)) (objects h).
Proof.
  intros Hin Hrun.
  assert (Hsame : forall d : bool,
    (let* mp := morphology_properties self in
     let* a := load p in
     let* kernel := lift (np_ones (kernel_x mp) (kernel_y mp) (np_dtype a)) in
     let* _ := cv_morph d p kernel p (iterations mp) in
     ret PyNone) h = Ok (r, h') ->
    exists mp a,
      props self = PropMorphology mp /\
      arrays h !! p = Some a /\
      0 <= kernel_x mp /\ 0 <= kernel_y mp /\ 0 <= iterations mp /\
      r = PyNone /\
      h' = mkHeap (<[p := morphed d mp a]> (arrays h)) (objects h)).
  { intros d Hd. unfold morphology_properties, bind, raise in Hd.
    destruct (props self) as [|wp|mp] eqn:Hp; try discriminate Hd.
    cbn [ret] in Hd. unfold load at 1 in Hd.
    destruct (arrays h !! p) as [a|] eqn:Ha; [|discriminate Hd].
    unfold lift, np_ones in Hd.
    destruct ((kernel_x mp <? 0) || (kernel_y mp <? 0)) eqn:Hneg;
      [destruct a; discriminate Hd|].
    apply orb_false_iff in Hneg as [Hx Hy]. apply Z.ltb_ge in Hx, Hy.
    exists mp, a. repeat (split; [first [reflexivity | assumption]|]).
    unfold cv_morph, bind, load, lift, store, morph_rows in Hd.
    destruct a as [t rows|rows]; cbn [np_dtype] in Hd; rewrite Ha in Hd;
      (destruct (iterations mp <? 0) eqn:Hn; [discriminate Hd|]);
      apply Z.ltb_ge in Hn; (split; [exact Hn|]);
      unfold morphed, ones;
      destruct (Z.to_nat (kernel_x mp)) as [|nx]; try discriminate Hd;
      destruct (Z.to_nat (kernel_y mp)) as [|ny]; try discriminate Hd;
      cbn [replicate] in Hd |- *; cbn [objects arrays] in Hd;
      injection Hd as <- <-; split; reflexivity. }
  unfold dispatch, isInplaceOp in *.
  destruct (cls self); cbn in Hin; try discriminate Hin; cbn [is_dilate].
  - apply (Hsame true). exact Hrun.
  - apply (Hsame false). exact Hrun.
Qed.

Lemma inplace_class (self : filter_obj) :
  cls self = FilterMorphologyDilate \/ cls self = FilterMorphologyErode ->
  isInplaceOp self = true.
Proof. unfold isInplaceOp. intros [-> | ->]; reflexivity. Qed.

Lemma windowed_dtype (lo hi : Z) (a : ndarray) :
  np_dtype (windowed lo hi a) = np_dtype a.
Proof. destruct a; reflexivity. Qed.

Lemma morphed_dtype (dilate : bool) (mp : FilterMorphologyProperties) (a : ndarray) :
  np_dtype (morphed dilate mp a) = np_dtype a.
Proof. destruct a; reflexivity. Qed.

Lemma rescaled_shape (a : ndarray) (slope intercept : float64) :
  shape (np_add_scalar (np_mul_scalar a slope) intercept) = shape a.
Proof.
  cbn [np_add_scalar np_mul_scalar as_float shape]. rewrite !map2d_shape.
  destruct a as [t rows|rows]; cbn [as_float shape];
    [apply map2d_shape | reflexivity].
Qed.

(** X1: whatever the filter and its parameters, a [dispatch] that returns
    has left every filter object and every array other than the one it was
    given as they were, and has removed no array from the heap. *)
Theorem dispatch_frame (self : filter_obj) (ds : dataset) (p : loc)
    (h h' : heap) (r : pyobj) :
  dispatch self ds p h = Ok (r, h') ->
  objects h' = objects h /\
  (length (arrays h) <= length (arrays h'))%nat /\
  (forall q : loc, q <> p -> (q < length (arrays h))%nat ->
     arrays h' !! q = arrays h !! q).
Proof.
  intros Hrun. destruct (cls self) eqn:Hc.
  - unfold dispatch in Hrun. rewrite Hc in Hrun.
    apply FilterTransformToHU_dispatch_cases in Hrun
      as [(_ & -> & _)|(a & s & i & _ & _ & _ & _ & ->)].
    + split; [reflexivity|]. split; [apply Nat.le_refl|]. reflexivity.
    + cbn [arrays objects]. split; [reflexivity|].
      split; [rewrite length_app; apply Nat.le_add_r|].
      intros q _ Hq. apply lookup_app_l. exact Hq.
  - unfold dispatch in Hrun. rewrite Hc in Hrun.
    apply FilterWindowing_dispatch_cases in Hrun as (wp & a & _ & _ & _ & ->).
    cbn [arrays objects]. split; [reflexivity|].
    split; [rewrite length_insert; apply Nat.le_refl|].
    intros q Hq _. apply list_lookup_insert_ne. congruence.
  - apply morphology_dispatch_cases in Hrun
      as (mp & a & _ & _ & _ & _ & _ & _ & ->); [|apply inplace_class; auto].
    cbn [arrays objects]. split; [reflexivity|].
    split; [rewrite length_insert; apply Nat.le_refl|].
    intros q Hq _. apply list_lookup_insert_ne. congruence.
  - apply morphology_dispatch_cases in Hrun
      as (mp & a & _ & _ & _ & _ & _ & _ & ->); [|apply inplace_class; auto].
    cbn [arrays objects]. split; [reflexivity|].
    split; [rewrite length_insert; apply Nat.le_refl|].
    intros q Hq _. apply list_lookup_insert_ne. congruence.
Qed.

Lemma dispatch_frame_witness :
  let h := mkHeap [IntArray int16 [[7; 8]]; IntArray int16 [[-100; 16; 64; 200]]]
                  [__init__ FilterWindowing] in
  exists h' : heap,
    dispatch (__init__ FilterWindowing) ∅ 1%nat h = Ok (PyArray 1%nat, h') /\
    objects h' = objects h /\
    (length (arrays h) <= length (arrays h'))%nat /\
    (forall q : loc, q <> 1%nat -> (q < length (arrays h))%nat ->
       arrays h' !! q = arrays h !! q).
Proof.
  cbn zeta.
  exists (mkHeap [IntArray int16 [[7; 8]]; IntArray int16 [[28; 28; 64; 68]]]
                 [__init__ FilterWindowing]).
  split; [vm_compute; reflexivity|].
  apply (dispatch_frame (__init__ FilterWindowing) ∅ 1%nat _ _ (PyArray 1%nat)).
  vm_compute. reflexivity.
Defined.

(** X2: whatever the filter, a [dispatch] that returns leaves at the input
    reference an array of the shape and element type the input had, and an
    array it returns has the shape of the input; the array the Hounsfield
    transform returns is a [float64] array. *)
Theorem dispatch_keeps_shape (self : filter_obj) (ds : dataset) (p : loc)
    (h h' : heap) (r : pyobj) (a : ndarray) :
  arrays h !! p = Some a ->
  dispatch self ds p h = Ok (r, h') ->
  (exists a', arrays h' !! p = Some a' /\
              shape a' = shape a /\ np_dtype a' = np_dtype a) /\
  (forall q : loc, r = PyArray q ->
     exists b, arrays h' !! q = Some b /\ shape b = shape a /\
               (cls self = FilterTransformToHU -> np_dtype b = dt_float64)).
Proof.
  intros Ha Hrun.
  assert (Hlt : (p < length (arrays h))%nat) by (apply lookup_lt_Some in Ha; exact Ha).
  destruct (cls self) eqn:Hc.
  - unfold dispatch in Hrun. rewrite Hc in Hrun.
    apply FilterTransformToHU_dispatch_cases in Hrun
      as [(-> & -> & _)|(a0 & s & i & _ & _ & Ha0 & -> & ->)].
    + split; [exists a; auto|]. intros q Hq. discriminate Hq.
    + assert (a0 = a) as -> by congruence. cbn [arrays]. split.
      * exists a. split; [apply lookup_app_l_Some; exact Ha|]. auto.
      * intros q Hq. injection Hq as <-. eexists. split.
        { rewrite lookup_app_r by apply Nat.le_refl.
          rewrite Nat.sub_diag. reflexivity. }
        split; [apply rescaled_shape | reflexivity].
  - unfold dispatch in Hrun. rewrite Hc in Hrun.
    apply FilterWindowing_dispatch_cases in Hrun as (wp & a0 & _ & Ha0 & -> & ->).
    assert (a0 = a) as -> by congruence. cbn [arrays].
    rewrite list_lookup_insert_eq by exact Hlt. split.
    + eexists. split; [reflexivity|]. split; [apply windowed_shape | apply windowed_dtype].
    + intros q Hq. injection Hq as <-.
      rewrite list_lookup_insert_eq by exact Hlt.
      eexists. split; [reflexivity|]. split; [apply windowed_shape|].
      intros Hcls. discriminate Hcls.
  - apply morphology_dispatch_cases in Hrun
      as (mp & a0 & _ & Ha0 & _ & _ & _ & -> & ->); [|apply inplace_class; auto].
    assert (a0 = a) as -> by congruence. cbn [arrays].
    rewrite list_lookup_insert_eq by exact Hlt. split.
    + eexists. split; [reflexivity|]. split; [apply morphed_shape | apply morphed_dtype].
    + intros q Hq. discriminate Hq.
  - apply morphology_dispatch_cases in Hrun
      as (mp & a0 & _ & Ha0 & _ & _ & _ & -> & ->); [|apply inplace_class; auto].
    assert (a0 = a) as -> by congruence. cbn [arrays].
    rewrite list_lookup_insert_eq by exact Hlt. split.
    + eexists. split; [reflexivity|]. split; [apply morphed_shape | apply morphed_dtype].
    + intros q Hq. discriminate Hq.
Qed.

Lemma dispatch_keeps_shape_witness :
  exists (h' : heap) (b : ndarray),
    dispatch (__init__ FilterTransformToHU) scenario_ds 0%nat scenario_heap =
      Ok (PyArray 1%nat, h') /\
    arrays h' !! 1%nat = Some b /\
    shape b = shape (IntArray int16 [[-100; 16; 64; 200]]) /\
    np_dtype b = dt_float64.
Proof.
  set (h1 := mkHeap (arrays scenario_heap ++
                        [np_add_scalar
                           (np_mul_scalar (IntArray int16 [[-100; 16; 64; 200]]) f64_two)
                           f64_neg1024]) []).
  assert (Hrun : dispatch (__init__ FilterTransformToHU) scenario_ds 0%nat scenario_heap =
            Ok (PyArray 1%nat, h1))
    by (vm_compute; reflexivity).
  destruct (dispatch_keeps_shape (__init__ FilterTransformToHU) scenario_ds 0%nat
              scenario_heap h1 (PyArray 1%nat) (IntArray int16 [[-100; 16; 64; 200]])
              eq_refl Hrun) as [_ Hret].
  destruct (Hret 1%nat eq_refl) as (b & Hb & Hshape & Hdt).
  exists h1, b. split; [exact Hrun|]. split; [exact Hb|].
  split; [exact Hshape | apply Hdt; reflexivity].
Defined.

(** X3: the value a [dispatch] returns follows the class: an inplace filter
    returns [None], the Windowing filter returns the reference it was given,
    and the Hounsfield transform returns [None] or a reference that did not
    exist before the call.  So a returned array always comes from a filter
    whose [isInplaceOp] is false. *)
Theorem dispatch_return_value (self : filter_obj) (ds : dataset) (p : loc)
    (h h' : heap) (r : pyobj) :
  dispatch self ds p h = Ok (r, h') ->
  (isInplaceOp self = true -> r = PyNone) /\
  (cls self = FilterWindowing -> r = PyArray p) /\
  (cls self = FilterTransformToHU ->
     r = PyNone \/ (r = PyArray (length (arrays h)) /\ r <> PyArray p)) /\
  (forall q : loc, r = PyArray q -> isInplaceOp self = false).
Proof.
  intros Hrun. unfold isInplaceOp. destruct (cls self) eqn:Hc.
  - unfold dispatch in Hrun. rewrite Hc in Hrun.
    apply FilterTransformToHU_dispatch_cases in Hrun
      as [(-> & _ & _)|(a & s & i & _ & _ & Ha & -> & _)].
    + repeat split; try discriminate; auto.
    + repeat split; try discriminate; auto.
      intros _. right. split; [reflexivity|].
      apply lookup_lt_Some in Ha. intros Heq. injection Heq as Heq. lia.
  - unfold dispatch in Hrun. rewrite Hc in Hrun.
    apply FilterWindowing_dispatch_cases in Hrun as (wp & a & _ & _ & -> & _).
    repeat split; try discriminate; auto.
  - apply morphology_dispatch_cases in Hrun
      as (mp & a & _ & _ & _ & _ & _ & -> & _); [|apply inplace_class; auto].
    repeat split; try discriminate; auto.
  - apply morphology_dispatch_cases in Hrun
      as (mp & a & _ & _ & _ & _ & _ & -> & _); [|apply inplace_class; auto].
    repeat split; try discriminate; auto.
Qed.

Lemma dispatch_return_value_witness :
  let h' := mkHeap [IntArray int16 [[-100; -100; -100; 16]]] [] in
  dispatch (__init__ FilterMorphologyErode) ∅ 0%nat scenario_heap = Ok (PyNone, h') /\
  (isInplaceOp (__init__ FilterMorphologyErode) = true -> PyNone = PyNone).
Proof.
  cbn zeta.
  assert (Hrun : dispatch (__init__ FilterMorphologyErode) ∅ 0%nat scenario_heap =
                 Ok (PyNone, mkHeap [IntArray int16 [[-100; -100; -100; 16]]] []))
    by (vm_compute; reflexivity).
  split; [exact Hrun|].
  exact (proj1 (dispatch_return_value (__init__ FilterMorphologyErode) ∅ 0%nat
                  scenario_heap (mkHeap [IntArray int16 [[-100; -100; -100; 16]]] [])
                  PyNone Hrun)).
Defined.

(** X4: the Hounsfield transform never changes an array that exists when it
    is called, whether the dataset carries the rescale attributes or not. *)
Theorem FilterTransformToHU_dispatch_never_mutates (self : filter_obj)
    (ds : dataset) (p : loc) (h h' : heap) (r : pyobj) :
  FilterTransformToHU_dispatch self ds p h = Ok (r, h') ->
  forall (q : loc) (x : ndarray), arrays h !! q = Some x -> arrays h' !! q = Some x.
Proof.
  intros Hrun q x Hq.
  apply FilterTransformToHU_dispatch_cases in Hrun
    as [(_ & -> & _)|(a & s & i & _ & _ & _ & _ & ->)].
  - exact Hq.
  - cbn [arrays]. apply lookup_app_l_Some. exact Hq.
Qed.

Lemma FilterTransformToHU_dispatch_never_mutates_witness :
  let h' := mkHeap (arrays scenario_heap ++
                      [np_add_scalar
                         (np_mul_scalar (IntArray int16 [[-100; 16; 64; 200]]) f64_two)
                         f64_neg1024]) [] in
  FilterTransformToHU_dispatch (__init__ FilterTransformToHU) scenario_ds 0%nat
    scenario_heap = Ok (PyArray 1%nat, h') /\
  arrays h' !! 0%nat = Some (IntArray int16 [[-100; 16; 64; 200]]).
Proof.
  intros h'.
  assert (Hrun : FilterTransformToHU_dispatch (__init__ FilterTransformToHU)
                   scenario_ds 0%nat scenario_heap = Ok (PyArray 1%nat, h'))
    by (vm_compute; reflexivity).
  split; [exact Hrun|].
  apply (FilterTransformToHU_dispatch_never_mutates (__init__ FilterTransformToHU)
           scenario_ds 0%nat scenario_heap h' (PyArray 1%nat) Hrun).
  reflexivity.
Defined.

(** X5: when the dataset lacks the slope or the intercept, the Hounsfield
    transform raises nothing, returns [None] and leaves the whole heap as it
    was, whatever the reference it is given, even one that holds no array. *)
Theorem FilterTransformToHU_dispatch_soft_noop (self : filter_obj) (ds : dataset)
    (p : loc) (h : heap) :
  hasattr ds "RescaleSlope" = false \/ hasattr ds "RescaleIntercept" = false ->
  FilterTransformToHU_dispatch self ds p h = Ok (PyNone, h).
Proof.
  intros Hmiss. apply FilterTransformToHU_dispatch_missing.
  unfold hasattr in Hmiss.
  destruct Hmiss as [Hm|Hm]; [left|right];
    apply bool_decide_eq_false in Hm;
    match goal with
    | |- ?o = None => destruct o eqn:Ho; [exfalso; apply Hm; eauto | reflexivity]
    end.
Qed.

Lemma FilterTransformToHU_dispatch_soft_noop_witness :
  FilterTransformToHU_dispatch (__init__ FilterTransformToHU)
    (<["RescaleSlope" := f64_two]> ∅) 5%nat scenario_heap = Ok (PyNone, scenario_heap).
Proof.
  apply FilterTransformToHU_dispatch_soft_noop. right. vm_compute. reflexivity.
Defined.

(** * Windowing, further *)

Lemma map2d_ext {A B} (f g : A -> B) (rows : list (list A)) :
  (forall v, f v = g v) -> map2d f rows = map2d g rows.
Proof.
  intros Hfg. unfold map2d. apply list_fmap_ext. intros _ row _.
  apply list_fmap_ext. intros _ v _. apply Hfg.
Qed.

Lemma SFltb_irrefl (x : float64) : f64_ltb x x = false.
Proof.
  unfold f64_ltb, SFltb.
  destruct x as [s|s| |s m e]; cbn; try reflexivity; destruct s; cbn;
    try reflexivity; rewrite Z.compare_refl, Pos.compare_cont_refl; reflexivity.
Qed.

(** Clamping twice is clamping once, for a comparison that is irreflexive on
    the two bounds. *)
Lemma clamp_idempotent {T} `{Pixel T} (lo hi : Z) (v : T) :
  pix_ltb (pix_of_int lo) (pix_of_int lo) = false ->
  pix_ltb (pix_of_int hi) (pix_of_int hi) = false ->
  clamp lo hi (clamp lo hi v) = clamp lo hi v.
Proof.
  intros Hlo Hhi. unfold clamp. cbn zeta.
  destruct (pix_ltb v (pix_of_int lo)) eqn:E1.
  - destruct (pix_ltb (pix_of_int hi) (pix_of_int lo)) eqn:E2.
    + rewrite E2, E2. reflexivity.
    + rewrite Hlo, E2. reflexivity.
  - destruct (pix_ltb (pix_of_int hi) v) eqn:E3.
    + destruct (pix_ltb (pix_of_int hi) (pix_of_int lo)) eqn:E2.
      * rewrite E2. reflexivity.
      * rewrite Hhi. reflexivity.
    + rewrite E1, E3. reflexivity.
Qed.

Lemma fits_windowed (lo hi x : Z) (a : ndarray) :
  fits (windowed lo hi a) x = fits a x.
Proof. destruct a; reflexivity. Qed.

Lemma windowed_idempotent (lo hi : Z) (a : ndarray) :
  windowed lo hi (windowed lo hi a) = windowed lo hi a.
Proof.
  destruct a as [t rows|rows]; cbn [windowed]; f_equal;
    rewrite map2d_map2d; apply map2d_ext; intros v; apply clamp_idempotent;
    cbn [pix_ltb pix_of_int Pixel_Z Pixel_float64];
    first [apply Z.ltb_irrefl | apply SFltb_irrefl].
Qed.

(** X6: the Windowing filter is idempotent: a second [dispatch] on the
    array the first one produced returns the same reference and changes
    nothing, for integer and float arrays and every level and width. *)
Theorem FilterWindowing_dispatch_idempotent (self : filter_obj) (ds : dataset)
    (p : loc) (h h1 : heap) (r : pyobj) :
  FilterWindowing_dispatch self ds p h = Ok (r, h1) ->
  FilterWindowing_dispatch self ds p h1 = Ok (r, h1).
Proof.
  intros Hrun. pose proof Hrun as Hfirst.
  apply FilterWindowing_dispatch_cases in Hrun as (wp & a & Hp & Ha & -> & ->).
  destruct (FilterWindowing_dispatch_fits self wp ds p h _ _ a Hp Ha Hfirst)
    as [Hlo Hhi].
  assert (Hlt : (p < length (arrays h))%nat) by (apply lookup_lt_Some in Ha; exact Ha).
  rewrite (FilterWindowing_dispatch_run self wp ds p _
             (windowed (level wp - width wp `div` 2) (level wp + width wp `div` 2) a) Hp);
    [|cbn [arrays]; apply list_lookup_insert_eq; exact Hlt
     |rewrite fits_windowed; exact Hlo
     |rewrite fits_windowed; exact Hhi].
  cbn [arrays objects]. rewrite list_insert_insert_eq, windowed_idempotent.
  reflexivity.
Qed.

Lemma FilterWindowing_dispatch_idempotent_witness :
  let h1 := mkHeap [IntArray int16 [[28; 28; 64; 68]]] [] in
  FilterWindowing_dispatch (__init__ FilterWindowing) ∅ 0%nat scenario_heap =
    Ok (PyArray 0%nat, h1) /\
  FilterWindowing_dispatch (__init__ FilterWindowing) ∅ 0%nat h1 =
    Ok (PyArray 0%nat, h1).
Proof.
  intros h1.
  assert (Hrun : FilterWindowing_dispatch (__init__ FilterWindowing) ∅ 0%nat
                   scenario_heap = Ok (PyArray 0%nat, h1))
    by (vm_compute; reflexivity).
  split; [exact Hrun|].
  exact (FilterWindowing_dispatch_idempotent (__init__ FilterWindowing) ∅ 0%nat
           scenario_heap h1 (PyArray 0%nat) Hrun).
Defined.

(** X7: with a negative width the window is inverted ([width // 2] rounds
    down, so [img_min > img_max]); on an integer array whose element type
    can hold both bounds, the two assignments in sequence send every element
    to [img_max = level + width // 2]. *)
Theorem FilterWindowing_dispatch_inverted_window (self : filter_obj)
    (wp : WindowingProperties) (ds : dataset) (p : loc) (h : heap)
    (t : itype) (rows : list (list Z)) :
  props self = PropWindowing wp ->
  arrays h !! p = Some (IntArray t rows) ->
  width wp < 0 ->
  int_min t <= level wp + width wp `div` 2 ->
  level wp - width wp `div` 2 <= int_max t ->
  level wp + width wp `div` 2 < level wp - width wp `div` 2 /\
  FilterWindowing_dispatch self ds p h =
    Ok (PyArray p,
        mkHeap (<[p := IntArray t (map2d (fun _ => level wp + width wp `div` 2) rows)]>
                  (arrays h))
               (objects h)).
Proof.
  intros Hp Ha Hw Hmin Hmax.
  assert (Hdiv : width wp `div` 2 < 0) by (apply Z.div_lt_upper_bound; lia).
  split; [lia|].
  rewrite (FilterWindowing_dispatch_run self wp ds p h _ Hp Ha);
    [|cbn [fits]; unfold in_range; rewrite andb_true_iff, !Z.leb_le; lia..].
  cbn [windowed].
  enough (Heq : map2d (clamp (level wp - width wp `div` 2)
                             (level wp + width wp `div` 2)) rows =
                map2d (fun _ => level wp + width wp `div` 2) rows)
    by (rewrite Heq; reflexivity).
  apply map2d_ext. intros v.
  unfold clamp. cbn [pix_ltb pix_of_int Pixel_Z].
  destruct (v <? level wp - width wp `div` 2) eqn:E1.
  - assert (E2 : (level wp + width wp `div` 2 <? level wp - width wp `div` 2) = true)
      by (apply Z.ltb_lt; lia).
    rewrite E2. reflexivity.
  - apply Z.ltb_ge in E1.
    assert (E2 : (level wp + width wp `div` 2 <? v) = true) by (apply Z.ltb_lt; lia).
    rewrite E2. reflexivity.
Qed.

Lemma FilterWindowing_dispatch_inverted_window_witness :
  FilterWindowing_dispatch
    (mkFilter FilterWindowing (PropWindowing {| level := 40; width := -1 |}))
    ∅ 0%nat scenario_heap =
  Ok (PyArray 0%nat, mkHeap [IntArray int16 [[39; 39; 39; 39]]] []).
Proof.
  apply (FilterWindowing_dispatch_inverted_window
           (mkFilter FilterWindowing (PropWindowing {| level := 40; width := -1 |}))
           {| level := 40; width := -1 |} ∅ 0%nat scenario_heap int16
           [[-100; 16; 64; 200]] eq_refl eq_refl);
    vm_compute; first [reflexivity | intros Hc; discriminate Hc].
Defined.



(** * The catalog, further *)

(** X9: two calls of [newFilter] in a row, even with the same index, give
    two different objects, each holding the freshly built filter of its
    class; the second call leaves the first object as it was, and neither
    call touches an array. *)
Theorem newFilter_twice_distinct (i j : Z) (h : heap) :
  -4 <= i < 4 -> -4 <= j < 4 ->
  exists (l1 l2 : loc) (h1 h2 : heap) (c1 c2 : filter_class),
    newFilter i h = Ok (l1, h1) /\
    newFilter j h1 = Ok (l2, h2) /\
    l1 <> l2 /\
    objects h1 !! l1 = Some (__init__ c1) /\
    objects h2 !! l1 = Some (__init__ c1) /\
    objects h2 !! l2 = Some (__init__ c2) /\
    arrays h2 = arrays h.
Proof.
  intros Hi Hj.
  destruct (newFilter_constructs i h Hi) as (c1 & _ & Hrun1).
  destruct (newFilter_constructs j (with_object h (__init__ c1)) Hj) as (c2 & _ & Hrun2).
  exists (length (objects h)), (length (objects (with_object h (__init__ c1)))),
    (with_object h (__init__ c1)),
    (with_object (with_object h (__init__ c1)) (__init__ c2)), c1, c2.
  split; [exact Hrun1|]. split; [exact Hrun2|].
  split.
  { unfold with_object. cbn [objects]. rewrite length_app. cbn [length]. lia. }
  split; [apply with_object_lookup_new|].
  split; [apply with_object_lookup_old, with_object_lookup_new|].
  split; [apply with_object_lookup_new | reflexivity].
Qed.

Lemma newFilter_twice_distinct_witness :
  exists (l1 l2 : loc) (h1 h2 : heap) (c1 c2 : filter_class),
    newFilter 1 (mkHeap [] []) = Ok (l1, h1) /\
    newFilter 1 h1 = Ok (l2, h2) /\
    l1 <> l2 /\
    objects h1 !! l1 = Some (__init__ c1) /\
    objects h2 !! l1 = Some (__init__ c1) /\
    objects h2 !! l2 = Some (__init__ c2) /\
    arrays h2 = arrays (mkHeap [] []).
Proof.
  apply (newFilter_twice_distinct 1 1 (mkHeap [] [])); lia.
Defined.

(** X10: an index in [0, 4) and the same index minus four select the same
    catalog entry: the two calls of [newFilter] give the same result. *)
Theorem newFilter_negative_alias (idx : Z) (h : heap) :
  0 <= idx < 4 -> newFilter (idx - 4) h = newFilter idx h.
Proof.
  intros Hr. rewrite !newFilter_run, !py_getitem_catalog_in by lia.
  assert (Hc : idx = 0 \/ idx = 1 \/ idx = 2 \/ idx = 3) by lia.
  destruct Hc as [->|[->|[->| ->]]]; reflexivity.
Qed.

Lemma newFilter_negative_alias_witness :
  newFilter (2 - 4) scenario_heap = newFilter 2 scenario_heap.
Proof. apply newFilter_negative_alias. lia. Defined.

(** X11: every filter has a non-empty display name and description, and
    the display name identifies the class: two filters with the same name
    are of the same class and agree on [isInplaceOp]. *)
Theorem displayName_identifies_class (o1 o2 : filter_obj) :
  displayName o1 <> "" /\ displayDesc o1 <> "" /\
  (displayName o1 = displayName o2 ->
   cls o1 = cls o2 /\ isInplaceOp o1 = isInplaceOp o2 /\
   displayDesc o1 = displayDesc o2).
Proof.
  unfold displayName, displayDesc, isInplaceOp.
  split; [destruct (cls o1); discriminate|].
  split; [destruct (cls o1); discriminate|].
  destruct (cls o1), (cls o2); cbn; intros Hn; try discriminate Hn; auto.
Qed.

(** * Morphology, further *)

(** X12: a filter whose [properties] are not those of its class cannot read
    its parameters: the Windowing filter and the two morphology filters
    raise [AttributeError] before they look at the array. *)
Theorem dispatch_foreign_properties (self : filter_obj) (ds : dataset)
    (p : loc) (h : heap) :
  match cls self, props self with
  | FilterTransformToHU, _ => False
  | FilterWindowing, PropWindowing _ => False
  | FilterMorphologyDilate, PropMorphology _ => False
  | FilterMorphologyErode, PropMorphology _ => False
  | _, _ => True
  end ->
  dispatch self ds p h = Raise AttributeError.
Proof.
  unfold dispatch, FilterWindowing_dispatch, FilterMorphologyDilate_dispatch,
    FilterMorphologyErode_dispatch, windowing_properties, morphology_properties,
    bind, raise.
  destruct (cls self), (props self); intros Hbad;
    first [contradiction | reflexivity].
Qed.

Lemma dispatch_foreign_properties_witness :
  dispatch (mkFilter FilterWindowing PropNone) ∅ 0%nat scenario_heap =
    Raise AttributeError.
Proof.
  apply (dispatch_foreign_properties (mkFilter FilterWindowing PropNone)).
  exact I.
Defined.

(** X13: a negative kernel size makes [np.ones] raise [ValueError]: the
    morphology filters raise it and never reach the array. *)
Theorem morphology_dispatch_negative_kernel (self : filter_obj)
    (mp : FilterMorphologyProperties) (ds : dataset) (p : loc) (h : heap)
    (a : ndarray) :
  isInplaceOp self = true ->
  props self = PropMorphology mp ->
  arrays h !! p = Some a ->
  kernel_x mp < 0 \/ kernel_y mp < 0 ->
  dispatch self ds p h = Raise ValueError.
Proof.
  intros Hin Hp Ha Hneg.
  assert (Hones : np_ones (kernel_x mp) (kernel_y mp) (np_dtype a) = Raise ValueError).
  { unfold np_ones.
    assert (Hb : (kernel_x mp <? 0) || (kernel_y mp <? 0) = true).
    { apply orb_true_iff. destruct Hneg; [left|right]; apply Z.ltb_lt; assumption. }
    rewrite Hb. reflexivity. }
  unfold dispatch, isInplaceOp in *.
  destruct (cls self); cbn in Hin; try discriminate Hin;
    unfold FilterMorphologyDilate_dispatch, FilterMorphologyErode_dispatch,
      morphology_properties; rewrite Hp;
    unfold bind at 1 2 3; cbn [ret]; unfold load at 1; rewrite Ha;
    unfold lift; rewrite Hones; reflexivity.
Qed.

Lemma morphology_dispatch_negative_kernel_witness :
  dispatch (morphology_filter FilterMorphologyDilate (-1) 5 1) ∅ 0%nat scenario_heap =
    Raise ValueError.
Proof.
  apply (morphology_dispatch_negative_kernel
           (morphology_filter FilterMorphologyDilate (-1) 5 1)
           {| kernel_x := -1; kernel_y := 5; iterations := 1 |} ∅ 0%nat
           scenario_heap (IntArray int16 [[-100; 16; 64; 200]]) eq_refl eq_refl eq_refl).
  left. cbn. lia.
Defined.

(** ** Parameters that make the morphology filters do nothing *)

Lemma morph_pass_centre_only {T} (sel : T -> T -> T) (rows : list (list T)) :
  morph_pass sel [(0, 0)] rows = rows.
Proof.
  unfold morph_pass. apply list_eq. intros i. rewrite list_lookup_imap.
  destruct (rows !! i) as [row|] eqn:Hrow; [|reflexivity].
  cbn. f_equal. apply list_eq. intros j. rewrite list_lookup_imap.
  destruct (row !! j) as [v|] eqn:Hv; [|reflexivity].
  cbn [fmap option_fmap option_map omap list_omap fst snd].
  rewrite !Z.add_0_r, at2_nat, Hrow. cbn. rewrite Hv. reflexivity.
Qed.

Lemma iter_fixed {A} (f : A -> A) (n : nat) (x : A) :
  (forall y, f y = y) -> Nat.iter n f x = x.
Proof.
  intros Hf. induction n as [|n IH]; [reflexivity|].
  cbn [Nat.iter nat_rect]. rewrite Hf. exact IH.
Qed.

Lemma morphed_noop (dilate : bool) (mp : FilterMorphologyProperties) (a : ndarray) :
  iterations mp = 0 \/ (kernel_x mp = 1 /\ kernel_y mp = 1) ->
  morphed dilate mp a = a.
Proof.
  intros [Hn|[Hx Hy]].
  - destruct a; cbn [morphed]; rewrite Hn; reflexivity.
  - assert (HoZ : kernel_offsets (ones (T:=Z) mp) = [(0, 0)])
      by (unfold ones; rewrite Hx, Hy; vm_compute; reflexivity).
    assert (HoF : kernel_offsets (ones (T:=float64) mp) = [(0, 0)])
      by (unfold ones; rewrite Hx, Hy; vm_compute; reflexivity).
    destruct a; cbn [morphed]; rewrite ?HoZ, ?HoF; f_equal;
      apply iter_fixed; intros y; apply morph_pass_centre_only.
Qed.

(** X14: with [iterations = 0], or with a 1-by-1 structuring element, a
    morphology filter returns [None] and leaves the heap exactly as it was,
    for integer and float arrays alike. *)
Theorem morphology_dispatch_noop (self : filter_obj)
    (mp : FilterMorphologyProperties) (ds : dataset) (p : loc) (h : heap)
    (a : ndarray) :
  isInplaceOp self = true ->
  props self = PropMorphology mp ->
  arrays h !! p = Some a ->
  0 < kernel_x mp -> 0 < kernel_y mp -> 0 <= iterations mp ->
  iterations mp = 0 \/ (kernel_x mp = 1 /\ kernel_y mp = 1) ->
  dispatch self ds p h = Ok (PyNone, h).
Proof.
  intros Hin Hp Ha Hx Hy Hn Hnoop.
  rewrite (morphology_dispatch_run self mp ds p h a) by assumption.
  rewrite morphed_noop by exact Hnoop.
  rewrite list_insert_id by exact Ha. destruct h; reflexivity.
Qed.

Lemma morphology_dispatch_noop_witness :
  dispatch (morphology_filter FilterMorphologyErode 1 1 3) ∅ 0%nat scenario_heap =
    Ok (PyNone, scenario_heap).
Proof.
  apply (morphology_dispatch_noop (morphology_filter FilterMorphologyErode 1 1 3)
           {| kernel_x := 1; kernel_y := 1; iterations := 3 |} ∅ 0%nat
           scenario_heap (IntArray int16 [[-100; 16; 64; 200]]) eq_refl eq_refl eq_refl);
    cbn; lia.
Defined.

(** ** The array lies between its erosion and its dilation *)

Lemma in_kernel_centre (mp : FilterMorphologyProperties) :
  0 < kernel_x mp -> 0 < kernel_y mp -> in_kernel mp 0 0.
Proof.
  intros Hx Hy. unfold in_kernel.
  assert (0 <= kernel_x mp `div` 2 < kernel_x mp)
    by (split; [apply Z.div_pos; lia | apply Z.div_lt; lia]).
  assert (0 <= kernel_y mp `div` 2 < kernel_y mp)
    by (split; [apply Z.div_pos; lia | apply Z.div_lt; lia]).
  lia.
Qed.

Lemma iter_dilate_increases (mp : FilterMorphologyProperties) (n : nat)
    (rows : list (list Z)) (i j v : Z) :
  0 < kernel_x mp -> 0 < kernel_y mp ->
  at2 rows i j = Some v ->
  exists w,
    at2 (Nat.iter n (morph_pass pix_max (kernel_offsets (ones (T:=Z) mp))) rows) i j =
      Some w /\ v <= w.
Proof.
  intros Hx Hy Hv. induction n as [|n (u & Hu & Hle)].
  - exists v. split; [exact Hv | lia].
  - cbn [Nat.iter nat_rect].
    destruct (dilate_pass_maximum mp _ i j u Hx Hy Hu) as (w & Hw & Hub & _).
    exists w. split; [exact Hw|].
    specialize (Hub 0 0 u (in_kernel_centre mp Hx Hy)).
    rewrite !Z.add_0_r in Hub. specialize (Hub Hu). lia.
Qed.

Lemma iter_erode_decreases (mp : FilterMorphologyProperties) (n : nat)
    (rows : list (list Z)) (i j v : Z) :
  0 < kernel_x mp -> 0 < kernel_y mp ->
  at2 rows i j = Some v ->
  exists w,
    at2 (Nat.iter n (morph_pass pix_min (kernel_offsets (ones (T:=Z) mp))) rows) i j =
      Some w /\ w <= v.
Proof.
  intros Hx Hy Hv. induction n as [|n (u & Hu & Hle)].
  - exists v. split; [exact Hv | lia].
  - cbn [Nat.iter nat_rect].
    destruct (erode_pass_minimum mp _ i j u Hx Hy Hu) as (w & Hw & Hlb & _).
    exists w. split; [exact Hw|].
    specialize (Hlb 0 0 u (in_kernel_centre mp Hx Hy)).
    rewrite !Z.add_0_r in Hlb. specialize (Hlb Hu). lia.
Qed.

(** X15: on an integer array, for every positive kernel size and every
    iteration count, the Dilate filter lowers no pixel and the Erode filter
    raises none: each pixel of the result is at least, respectively at most,
    the pixel it replaces. *)
Theorem morphology_dispatch_bounds_input (self : filter_obj)
    (mp : FilterMorphologyProperties) (ds : dataset) (p : loc) (h : heap)
    (t : itype) (rows : list (list Z)) :
  isInplaceOp self = true ->
  props self = PropMorphology mp ->
  arrays h !! p = Some (IntArray t rows) ->
  0 < kernel_x mp -> 0 < kernel_y mp -> 0 <= iterations mp ->
  exists rows' : list (list Z),
    dispatch self ds p h =
      Ok (PyNone, mkHeap (<[p := IntArray t rows']> (arrays h)) (objects h)) /\
    forall i j v, at2 rows i j = Some v ->
      exists w, at2 rows' i j = Some w /\
        (cls self = FilterMorphologyDilate -> v <= w) /\
        (cls self = FilterMorphologyErode -> w <= v).
Proof.
  intros Hin Hp Ha Hx Hy Hn. eexists.
  split; [apply (morphology_dispatch_run self mp ds p h _ Hin Hp Hx Hy Hn Ha)|].
  intros i j v Hv. unfold isInplaceOp in Hin.
  destruct (cls self); cbn in Hin; try discriminate Hin; cbn [is_dilate].
  - destruct (iter_dilate_increases mp (Z.to_nat (iterations mp)) rows i j v Hx Hy Hv)
      as (w & Hw & Hle).
    exists w. split; [exact Hw|]. split; [intros _; exact Hle | discriminate].
  - destruct (iter_erode_decreases mp (Z.to_nat (iterations mp)) rows i j v Hx Hy Hv)
      as (w & Hw & Hle).
    exists w. split; [exact Hw|]. split; [discriminate | intros _; exact Hle].
Qed.

Lemma morphology_dispatch_bounds_input_witness :
  exists rows' : list (list Z),
    dispatch (__init__ FilterMorphologyDilate) ∅ 0%nat scenario_heap =
      Ok (PyNone, mkHeap (<[0%nat := IntArray int16 rows']> (arrays scenario_heap))
                         (objects scenario_heap)) /\
    forall i j v, at2 [[-100; 16; 64; 200]] i j = Some v ->
      exists w, at2 rows' i j = Some w /\
        (cls (__init__ FilterMorphologyDilate) = FilterMorphologyDilate -> v <= w) /\
        (cls (__init__ FilterMorphologyDilate) = FilterMorphologyErode -> w <= v).
Proof.
  apply (morphology_dispatch_bounds_input (__init__ FilterMorphologyDilate)
           {| kernel_x := 5; kernel_y := 5; iterations := 1 |} ∅ 0%nat
           scenario_heap int16 [[-100; 16; 64; 200]] eq_refl eq_refl eq_refl);
    cbn; lia.
Defined.

(** * The Hounsfield transform followed by the window *)

(** X16: feeding the array returned by the Hounsfield transform to the
    Windowing filter, with bounds that convert to finite floats, windows the
    rescaled copy in place and still leaves the original frame untouched:
    the copy holds, for each input element
    [v], the value [v * slope + intercept] of binary64 arithmetic, raised to
    [min] if it is below and then lowered to [max] if it is above.  With
    slope 2.0, intercept -1024.0, level -900 and width 200 the 16-bit frame
    [-100, 16, 64, 200] is kept and the copy is
    [-1000.0, -992.0, -896.0, -800.0]. *)
Theorem transform_then_window :
  (forall (fh fw : filter_obj) (wp : WindowingProperties) (ds : dataset)
          (p : loc) (h : heap) (a : ndarray) (slope intercept : float64),
     cls fh = FilterTransformToHU ->
     cls fw = FilterWindowing ->
     props fw = PropWindowing wp ->
     ds !! "RescaleSlope" = Some slope ->
     ds !! "RescaleIntercept" = Some intercept ->
     arrays h !! p = Some a ->
     float_holds (level wp - width wp `div` 2) = true ->
     float_holds (level wp + width wp `div` 2) = true ->
     let window := fun x : spec_float =>
       let lo := binary_normalize 53 1024 (level wp - width wp `div` 2) 0 false in
       let hi := binary_normalize 53 1024 (level wp + width wp `div` 2) 0 false in
       let u := if SFltb x lo then lo else x in
       if SFltb hi u then hi else u in
     exists (q : loc) (h1 h2 : heap) (out : list (list float64)),
       dispatch fh ds p h = Ok (PyArray q, h1) /\
       dispatch fw ds q h1 = Ok (PyArray q, h2) /\
       q <> p /\
       arrays h2 !! p = Some a /\
       arrays h2 !! q = Some (FloatArray out) /\
       length (arrays h2) = S (length (arrays h)) /\
       (forall (t : itype) (rows : list (list Z)), a = IntArray t rows ->
          forall i j z, at2 rows i j = Some z ->
            at2 out i j =
              Some (window (SFadd 53 1024
                              (SFmul 53 1024 (binary_normalize 53 1024 z 0 false) slope)
                              intercept))) /\
       (forall rows : list (list float64), a = FloatArray rows ->
          forall i j v, at2 rows i j = Some v ->
            at2 out i j =
              Some (window (SFadd 53 1024 (SFmul 53 1024 v slope) intercept)))) /\
  (let ds : dataset :=
     <["RescaleSlope" := S754_finite false 4503599627370496 (-51)]>
       (<["RescaleIntercept" := S754_finite true 4503599627370496 (-42)]> ∅) in
   let h1 := mkHeap [IntArray int16 [[-100; 16; 64; 200]];
                     FloatArray [[S754_finite true 5383208929591296 (-42);
                                  S754_finite true 8725724278030336 (-43);
                                  S754_finite true 7881299347898368 (-43);
                                  S754_finite true 5488762045857792 (-43)]]] [] in
   dispatch (__init__ FilterTransformToHU) ds 0%nat
     (mkHeap [IntArray int16 [[-100; 16; 64; 200]]] []) = Ok (PyArray 1%nat, h1) /\
   dispatch (mkFilter FilterWindowing (PropWindowing {| level := -900; width := 200 |}))
     ds 1%nat h1 =
   Ok (PyArray 1%nat,
       mkHeap [IntArray int16 [[-100; 16; 64; 200]];
               FloatArray [[S754_finite true 8796093022208000 (-43);
                            S754_finite true 8725724278030336 (-43);
                            S754_finite true 7881299347898368 (-43);
                            S754_finite true 7036874417766400 (-43)]]] [])).
Proof.
  split; [|cbn zeta; split; vm_compute; reflexivity].
  intros fh fw wp ds p h a slope intercept Hch Hcw Hp Hs Hi Ha _ _ window.
  assert (Hlt : (p < length (arrays h))%nat) by (apply lookup_lt_Some in Ha; exact Ha).
  set (b := np_add_scalar (np_mul_scalar a slope) intercept).
  set (h1 := mkHeap (arrays h ++ [b]) (objects h)).
  assert (Hb : arrays h1 !! length (arrays h) = Some b).
  { cbn [h1 arrays]. rewrite lookup_app_r by apply Nat.le_refl.
    rewrite Nat.sub_diag. reflexivity. }
  set (out := map2d (fun v : float64 => window (SFadd 53 1024 (SFmul 53 1024 v slope) intercept))
                (as_float a)).
  assert (Hw : windowed (level wp - width wp `div` 2) (level wp + width wp `div` 2) b =
               FloatArray out).
  { subst b out. unfold np_add_scalar, np_mul_scalar. cbn [windowed as_float].
    rewrite !map2d_map2d. reflexivity. }
  exists (length (arrays h)), h1,
    (mkHeap (<[length (arrays h) := FloatArray out]> (arrays h1)) (objects h1)), out.
  split.
  { unfold dispatch. rewrite Hch.
    apply (FilterTransformToHU_dispatch_run fh ds p h a slope intercept Hs Hi Ha). }
  split.
  { unfold dispatch. rewrite Hcw. rewrite <- Hw.
    apply (FilterWindowing_dispatch_run fw wp ds _ h1 b Hp Hb); reflexivity. }
  cbn [arrays objects h1].
  split; [lia|].
  split.
  { rewrite list_lookup_insert_ne by lia. apply lookup_app_l_Some. exact Ha. }
  split.
  { apply list_lookup_insert_eq. rewrite length_app. cbn [length]. lia. }
  split.
  { rewrite length_insert, length_app. cbn [length]. lia. }
  split.
  - intros t rows -> i j z Hz. subst out. cbn [as_float].
    rewrite map2d_map2d, at2_map2d, Hz. reflexivity.
  - intros rows -> i j v Hv. subst out. cbn [as_float].
    rewrite at2_map2d, Hv. reflexivity.
Qed.

Lemma transform_then_window_witness :
  exists (q : loc) (h1 h2 : heap) (out : list (list float64)),
    dispatch (__init__ FilterTransformToHU) scenario_ds 0%nat scenario_heap =
      Ok (PyArray q, h1) /\
    dispatch (__init__ FilterWindowing) scenario_ds q h1 = Ok (PyArray q, h2) /\
    q <> 0%nat /\
    arrays h2 !! 0%nat = Some (IntArray int16 [[-100; 16; 64; 200]]) /\
    arrays h2 !! q = Some (FloatArray out) /\
    length (arrays h2) = S (length (arrays scenario_heap)).
Proof.
  destruct transform_then_window as [Hgen _].
  destruct (Hgen (__init__ FilterTransformToHU) (__init__ FilterWindowing)
              {| width := 40; level := 48 |} scenario_ds 0%nat scenario_heap
              (IntArray int16 [[-100; 16; 64; 200]]) f64_two f64_neg1024)
    as (q & h1 & h2 & out & H1 & H2 & Hq & Hp & Hout & Hlen & _);
    [reflexivity | reflexivity | reflexivity | vm_compute; reflexivity
    | vm_compute; reflexivity | reflexivity | reflexivity | reflexivity |].
  exists q, h1, h2, out. auto 10.
Defined.
